(** * Administrator account security and scheme eligibility checking

    A shallow embedding of

    - [bl/services/administrator_service.py] (class [AdministratorService]):
      salted password hashing, the failed-login counter with its retry
      window, account locking, and administrator creation;
    - [bl/schemes/scheme_eligibilty_checker.py] (class
      [SchemeEligibilityChecker]): the context object that asks an
      eligibility strategy for a verdict and, when it is positive, for the
      benefits.

    Conventions.
    - A Python [str] is represented by the byte string of its UTF-8 encoding
      (a Rocq [string]); encoding is injective and commutes with
      concatenation, so [f'{salt}:{password}'.encode('utf-8')] is the
      concatenation of the three representations.
    - A Python [int] is a [Z].
    - A [datetime] is the number of microseconds since the epoch, in UTC
      (a [Z]); a [timedelta] is a number of microseconds.  Attaching
      [tzinfo=timezone.utc] to a stored timestamp does not change that number,
      so the assignment that does it is the identity here.  The bounded
      ranges of [datetime] and [timedelta] are not modelled.
    - Methods that talk to the persistence layer run in the monad [M], which
      threads the [World] (the administrator table, the log of persistence
      calls, the clock) and propagates exceptions. *)

From Stdlib Require Import ZArith List String Ascii Bool Lia.
From stdpp Require Import base option gmap strings pretty.
Import ListNotations.

Local Open Scope Z_scope.
Local Open Scope string_scope.

(** ** SHA-256 ([hashlib.sha256], FIPS 180-4) *)

Module SHA256.

Definition wrap32 (x : Z) : Z := x mod 2 ^ 32.

Definition add32 (x y : Z) : Z := wrap32 (x + y).

Definition rotr (n x : Z) : Z :=
  Z.lor (Z.shiftr x n) (wrap32 (Z.shiftl x (32 - n))).

Definition not32 (x : Z) : Z := Z.lxor x 0xffffffff.

Definition Ch (x y z : Z) : Z := Z.lxor (Z.land x y) (Z.land (not32 x) z).

Definition Maj (x y z : Z) : Z :=
  Z.lxor (Z.lxor (Z.land x y) (Z.land x z)) (Z.land y z).

Definition Sigma0 (x : Z) : Z := Z.lxor (Z.lxor (rotr 2 x) (rotr 13 x)) (rotr 22 x).
Definition Sigma1 (x : Z) : Z := Z.lxor (Z.lxor (rotr 6 x) (rotr 11 x)) (rotr 25 x).
Definition sigma0 (x : Z) : Z := Z.lxor (Z.lxor (rotr 7 x) (rotr 18 x)) (Z.shiftr x 3).
Definition sigma1 (x : Z) : Z := Z.lxor (Z.lxor (rotr 17 x) (rotr 19 x)) (Z.shiftr x 10).

(** The round constants and the initial hash value are given by the standard
    through the primes: the first 32 bits of the fractional parts of the cube
    roots of the first 64 primes, and of the square roots of the first 8. *)
Definition is_prime (n : Z) : bool :=
  forallb (fun d => negb (n mod d =? 0)%Z) (map Z.of_nat (seq 2 (Z.to_nat n - 2))).

Definition primes : list Z := filter is_prime (map Z.of_nat (seq 2 310)).

(** The integer cube root of [n], built from the bit of weight [2 ^ (k - 1)]
    downwards on top of [r]. *)
Fixpoint cube_root_from (k : nat) (n r : Z) : Z :=
  match k with
  | O => r
  | S k' =>
      let c := r + 2 ^ Z.of_nat k' in
      if (c * c * c <=? n)%Z then cube_root_from k' n c else cube_root_from k' n r
  end.

Definition frac_cube_root (p : Z) : Z := wrap32 (cube_root_from 40 (p * 2 ^ 96) 0).

Definition frac_square_root (p : Z) : Z := wrap32 (Z.sqrt (p * 2 ^ 64)).

Definition K : list Z := map frac_cube_root primes.

(** The eight working variables, and equally the chaining value. *)
Record regs := Regs { ra : Z; rb : Z; rc : Z; rd : Z; re : Z; rf : Z; rg : Z; rh : Z }.

Definition H0 : regs :=
  let h := fun i => frac_square_root (nth i primes 0) in
  Regs (h 0%nat) (h 1%nat) (h 2%nat) (h 3%nat) (h 4%nat) (h 5%nat) (h 6%nat) (h 7%nat).

(** Message padding: a [0x80] byte, zero bytes up to 56 modulo 64, then the
    bit length as a 64-bit big-endian number. *)
Definition be_bytes (n : nat) (x : Z) : list Z :=
  map (fun i => (x / 2 ^ (8 * Z.of_nat i)) mod 256) (rev (seq 0 n)).

Definition pad (msg : list Z) : list Z :=
  let len := Z.of_nat (length msg) in
  msg ++ [0x80] ++ repeat 0 (Z.to_nat ((55 - len) mod 64)) ++ be_bytes 8 (8 * len).

Fixpoint group_fuel {A} (fuel k : nat) (l : list A) : list (list A) :=
  match fuel, l with
  | S fuel', _ :: _ => firstn k l :: group_fuel fuel' k (skipn k l)
  | _, _ => []
  end.

Definition group {A} (k : nat) (l : list A) : list (list A) :=
  group_fuel (length l) k l.

Definition be_word (bs : list Z) : Z := fold_left (fun acc b => acc * 256 + b) bs 0.

(** The message schedule, newest word first: [w] holds W(t-1), W(t-2), ... *)
Fixpoint schedule (n : nat) (w : list Z) : list Z :=
  match n with
  | O => w
  | S n' =>
      let wt := add32 (add32 (add32 (sigma1 (nth 1 w 0)) (nth 6 w 0))
                             (sigma0 (nth 14 w 0))) (nth 15 w 0) in
      schedule n' (wt :: w)
  end.

Definition round (s : regs) (kw : Z * Z) : regs :=
  let '(k, w) := kw in
  let t1 := add32 (add32 (add32 (add32 (rh s) (Sigma1 (re s))) (Ch (re s) (rf s) (rg s))) k) w in
  let t2 := add32 (Sigma0 (ra s)) (Maj (ra s) (rb s) (rc s)) in
  Regs (add32 t1 t2) (ra s) (rb s) (rc s) (add32 (rd s) t1) (re s) (rf s) (rg s).

Definition compress (h : regs) (block : list Z) : regs :=
  let w := rev (schedule 48 (rev (map be_word (group 4 block)))) in
  let s := fold_left round (combine K w) h in
  Regs (add32 (ra h) (ra s)) (add32 (rb h) (rb s)) (add32 (rc h) (rc s)) (add32 (rd h) (rd s))
       (add32 (re h) (re s)) (add32 (rf h) (rf s)) (add32 (rg h) (rg s)) (add32 (rh h) (rh s)).

Definition state (msg : list Z) : regs := fold_left compress (group 64 (pad msg)) H0.

(** The digest as one 256-bit big-endian number. *)
Definition regs_value (h : regs) : Z :=
  fold_left (fun acc w => acc * 2 ^ 32 + w)
    [ra h; rb h; rc h; rd h; re h; rf h; rg h; rh h] 0.

Definition digest (msg : list Z) : Z := regs_value (state msg).

Definition hexchar (d : Z) : ascii :=
  nth (Z.to_nat d) (list_ascii_of_string "0123456789abcdef") "0"%char.

Fixpoint hex_acc (n : nat) (x : Z) (acc : string) : string :=
  match n with
  | O => acc
  | S n' => hex_acc n' (x / 16) (String (hexchar (x mod 16)) acc)
  end.

Definition hex (n : nat) (x : Z) : string := hex_acc n x EmptyString.

Definition hexdigest (msg : list Z) : string := hex 64 (digest msg).

End SHA256.

(** [s.encode('utf-8')]: the bytes of the representation. *)
Fixpoint encode_utf8 (s : string) : list Z :=
  match s with
  | EmptyString => []
  | String c s' => Z.of_N (N_of_ascii c) :: encode_utf8 s'
  end.

(** ** Password hashing ([AdministratorService.hash_password], [verify_password])

    Neither method reads [self], so the embedding drops that argument. *)

Definition hash_password (password salt : string) : string :=
  SHA256.hexdigest (encode_utf8 (salt +:+ ":" +:+ password)).

Definition verify_password (stored_password_hash provided_password salt : string) : bool :=
  String.eqb stored_password_hash (hash_password provided_password salt).

(** ** The administrator record and the persistence layer *)

(** Modelled from the spec: the ORM class [dal.models.Administrator] is not
    part of the sources at hand; the fields are those of the spec's data model
    (section 3), with the names the service uses to read them. *)
Record Administrator := {
  id : Z;
  username : string;
  password_hash : string;
  salt : string;
  account_locked : bool;
  consecutive_failed_logins : Z;
  failed_login_starttime : option Z;
}.

(** Values stored in the [update_data] dictionaries. *)
Inductive Value :=
| VNone
| VBool (b : bool)
| VInt (n : Z)
| VStr (s : string)
| VDatetime (t : Z).

Inductive CrudCall :=
| GetAdministrator (admin_id : Z)
| GetAdministratorByUsername (name : string)
| CreateAdministrator (name hash salt_ : string)
| UpdateAdministrator (admin_id : Z) (update_data : gmap string Value).

Record World := {
  admins : gmap Z Administrator;   (* the administrators table, by primary key *)
  calls : list CrudCall;           (* persistence calls made so far, oldest first *)
  clock : Z;                       (* what datetime.now(timezone.utc) returns *)
}.

Inductive exn :=
| AdministratorNotFoundException (msg : string)
| InvalidAdministratorDataException (msg : string)
| KeyError (key : string).

Inductive result (A : Type) :=
| Ok (a : A)
| Raise (e : exn).
Arguments Ok {A} a.
Arguments Raise {A} e.

Definition M (A : Type) : Type := World -> result A * World.

#[global] Instance M_ret : MRet M := fun A a w => (Ok a, w).

#[global] Instance M_bind : MBind M := fun A B f m w =>
  match m w with
  | (Ok a, w') => f a w'
  | (Raise e, w') => (Raise e, w')
  end.

Definition raise {A} (e : exn) : M A := fun w => (Raise e, w).

Definition datetime_now : M Z := fun w => (Ok (clock w), w).

Definition timedelta_minutes (minutes : Z) : Z := minutes * 60000000.

Definition log_call (c : CrudCall) : M unit := fun w =>
  (Ok tt, {| admins := admins w; calls := calls w ++ [c]; clock := clock w |}).

Definition read_table : M (gmap Z Administrator) := fun w => (Ok (admins w), w).

Definition write_table (t : gmap Z Administrator) : M unit := fun w =>
  (Ok tt, {| admins := t; calls := calls w; clock := clock w |}).

(** Modelled from the spec: how [update_administrator] applies
    [partial_fields] to a row, [setattr(admin, key, value)] for every item.
    A value of the wrong type for its column is ignored; the primary key is
    not updatable. *)
Definition apply_update (update_data : gmap string Value) (a : Administrator) : Administrator :=
  {| id := id a;
     username := match update_data !! "username" with Some (VStr u) => u | _ => username a end;
     password_hash :=
       match update_data !! "password_hash" with Some (VStr h) => h | _ => password_hash a end;
     salt := match update_data !! "salt" with Some (VStr s) => s | _ => salt a end;
     account_locked :=
       match update_data !! "account_locked" with Some (VBool b) => b | _ => account_locked a end;
     consecutive_failed_logins :=
       match update_data !! "consecutive_failed_logins" with
       | Some (VInt n) => n
       | _ => consecutive_failed_logins a
       end;
     failed_login_starttime :=
       match update_data !! "failed_login_starttime" with
       | Some (VDatetime t) => Some t
       | Some VNone => None
       | _ => failed_login_starttime a
       end |}.

(** Modelled from the spec: the class [dal.crud_operations.CRUDOperations] is
    not part of the sources at hand.  These are the typed operations that
    section 6 of the spec lists as consumed from the persistence collaborator:
    [get_administrator(id) -> Administrator | fails NotFound],
    [get_administrator_by_username(name) -> Administrator | none],
    [create_administrator(username, password_hash, salt) -> Administrator],
    [update_administrator(id, partial_fields) -> Administrator].
    Every call is appended to the log.  Uniqueness of usernames is not
    enforced here. *)
Module CRUDOperations.

(** Modelled from the spec: [get_administrator(id) -> Administrator | fails
    NotFound]. *)
Definition get_administrator (admin_id : Z) : M (option Administrator) :=
  _ ← log_call (GetAdministrator admin_id);
  t ← read_table;
  match t !! admin_id with
  | Some a => mret (Some a)
  | None => raise (AdministratorNotFoundException "Administrator not found.")
  end.

(** Modelled from the spec: [get_administrator_by_username(name) ->
    Administrator | none]; usernames are unique, and should several rows carry
    the name the first one in the table's enumeration is returned. *)
Definition get_administrator_by_username (name : string) : M (option Administrator) :=
  _ ← log_call (GetAdministratorByUsername name);
  t ← read_table;
  mret (snd <$> List.find (fun '(_, a) => String.eqb (username a) name) (map_to_list t)).

(** Modelled from the spec: the key given to a new row (an auto-increment
    primary key). *)
Definition next_id (t : gmap Z Administrator) : Z :=
  1 + map_fold (fun k _ acc => Z.max k acc) 0 t.

(** Modelled from the spec: [create_administrator(username, password_hash,
    salt) -> Administrator]; the new administrator starts zeroed and
    unlocked. *)
Definition create_administrator (name hash salt_ : string) : M Administrator :=
  _ ← log_call (CreateAdministrator name hash salt_);
  t ← read_table;
  let a := {| id := next_id t; username := name; password_hash := hash; salt := salt_;
              account_locked := false; consecutive_failed_logins := 0;
              failed_login_starttime := None |} in
  _ ← write_table (<[id a := a]> t);
  mret a.

(** Modelled from the spec: [update_administrator(id, partial_fields) ->
    Administrator]; one write of the row with the given fields replaced. *)
Definition update_administrator (admin_id : Z) (update_data : gmap string Value)
  : M Administrator :=
  _ ← log_call (UpdateAdministrator admin_id update_data);
  t ← read_table;
  match t !! admin_id with
  | Some a =>
      let a' := apply_update update_data a in
      _ ← write_table (<[admin_id := a']> t);
      mret a'
  | None => raise (AdministratorNotFoundException "Administrator not found.")
  end.

End CRUDOperations.

(** ** [AdministratorService] *)

(** The attributes of [self] that the methods read; [self.crud_operations] is
    the [World]. *)
Record AdministratorService := {
  MAX_PASSWORD_RETRIES : Z;
  PASSWORD_RETRIES_TIME_WINDOW_MINUTES : Z;
}.

(** The service as configured when the environment sets neither option. *)
Definition default_service : AdministratorService :=
  {| MAX_PASSWORD_RETRIES := 5; PASSWORD_RETRIES_TIME_WINDOW_MINUTES := 10 |}.

Definition _get_admin_by_id (admin_id : Z) : M Administrator :=
  admin ← CRUDOperations.get_administrator admin_id;
  match admin with
  | None =>
      raise (AdministratorNotFoundException
               ("Administrator with ID " +:+ pretty admin_id +:+ " not found."))
  | Some admin => mret admin
  end.

Definition _get_admin_by_username (name : string) : M Administrator :=
  admin ← CRUDOperations.get_administrator_by_username name;
  match admin with
  | None =>
      raise (AdministratorNotFoundException
               ("Administrator with Isername " +:+ name +:+ " not found."))
  | Some admin => mret admin
  end.

Definition increment_login_failure_counter (self : AdministratorService) (admin_id : Z)
  : M unit :=
  admin ← _get_admin_by_id admin_id;
  current_time ← datetime_now;
  let current_count := consecutive_failed_logins admin in
  let time_window := timedelta_minutes (PASSWORD_RETRIES_TIME_WINDOW_MINUTES self) in
  let '(current_count, update_data) :=
    match failed_login_starttime admin with
    | Some starttime =>
        let time_since_first_failure := current_time - starttime in
        if (time_window <? time_since_first_failure)%Z then
          (current_count,
           ({[ "consecutive_failed_logins" := VInt 1;
               "failed_login_starttime" := VDatetime current_time ]} : gmap string Value))
        else
          let current_count := current_count + 1 in
          (current_count, {[ "consecutive_failed_logins" := VInt current_count ]})
    | None =>
        (current_count,
         {[ "consecutive_failed_logins" := VInt 1;
            "failed_login_starttime" := VDatetime current_time ]})
    end in
  let update_data :=
    if (MAX_PASSWORD_RETRIES self <=? current_count)%Z
    then <["account_locked" := VBool true]> update_data
    else update_data in
  _ ← CRUDOperations.update_administrator admin_id update_data;
  mret tt.

Definition reset_login_failure_counters (admin_id : Z) : M unit :=
  let update_data : gmap string Value :=
    {[ "consecutive_failed_logins" := VInt 0; "failed_login_starttime" := VNone ]} in
  _ ← CRUDOperations.update_administrator admin_id update_data;
  mret tt.

Definition unlock_administrator_account (admin_id : Z) : M unit :=
  _ ← _get_admin_by_id admin_id;
  let update_data : gmap string Value :=
    {[ "account_locked" := VBool false;
       "consecutive_failed_logins" := VInt 0;
       "failed_login_starttime" := VNone ]} in
  _ ← CRUDOperations.update_administrator admin_id update_data;
  mret tt.

Definition lock_administrator_account (admin_id : Z) : M unit :=
  _ ← _get_admin_by_id admin_id;
  let update_data : gmap string Value := {[ "account_locked" := VBool true ]} in
  _ ← CRUDOperations.update_administrator admin_id update_data;
  mret tt.

(** On success the method returns the administrator object it looked up; the
    value here is the row as it was read. *)
Definition verify_login_credentials (self : AdministratorService) (name password : string)
  : M (option Administrator) :=
  admin ← _get_admin_by_username name;
  if negb (account_locked admin) then
    if verify_password (password_hash admin) password (salt admin) then
      _ ← reset_login_failure_counters (id admin);
      mret (Some admin)
    else
      _ ← increment_login_failure_counter self (id admin);
      mret None
  else mret None.

(** [create_administrator].  [admin_data] is a dictionary of text fields;
    [validate_administrator_data] (module [utils.data_validation], not part of
    the sources at hand) is a parameter; [urandom16_hex] is what
    [os.urandom(16).hex()] returns.  The method overwrites two entries of the
    caller's dictionary before it validates it, and it is that dictionary
    which is validated. *)
Section CreateAdministrator.

Variable validate_administrator_data : gmap string string -> bool -> bool * string.

Definition getitem (d : gmap string string) (key : string) : M string :=
  match d !! key with
  | Some v => mret v
  | None => raise (KeyError key)
  end.

Definition create_administrator (admin_data : gmap string string) (urandom16_hex : string)
  : M Administrator :=
  let salt := urandom16_hex in
  raw_password ← getitem admin_data "password_hash";
  let password_hash := hash_password raw_password salt in
  let admin_data := <["password_hash" := password_hash]> admin_data in
  let admin_data := <["salt" := salt]> admin_data in
  let '(isValid, msg) := validate_administrator_data admin_data true in
  if negb isValid then raise (InvalidAdministratorDataException msg)
  else
  name ← getitem admin_data "username";
  CRUDOperations.create_administrator name password_hash salt.

End CreateAdministrator.

(** ** [SchemeEligibilityChecker]

    The strategy ([bl.schemes.base_eligibility.BaseEligibility]) is an
    interface: two methods that may read and change some state of their own
    and may raise.  The checker runs against a spy that records, in order,
    every call made to the strategy. *)
Section Checker.

Context {Applicant Scheme Benefit StrategyState Exn : Type}.

Inductive outcome (A : Type) :=
| Returned (a : A)
| Raised (e : Exn).
Arguments Returned {A} a.
Arguments Raised {A} e.

Record BaseEligibility := {
  check_eligibility : Applicant -> StrategyState -> outcome (bool * string) * StrategyState;
  calculate_benefits : Applicant -> StrategyState -> outcome (list Benefit) * StrategyState;
}.

Inductive StrategyCall :=
| CheckEligibility (applicant : Applicant)
| CalculateBenefits (applicant : Applicant).

Record Spy := { strategy_state : StrategyState; trace : list StrategyCall }.

Definition C (A : Type) : Type := Spy -> outcome A * Spy.

Definition C_ret {A} (a : A) : C A := fun s => (Returned a, s).

Definition C_bind {A B} (m : C A) (f : A -> C B) : C B := fun s =>
  match m s with
  | (Returned a, s') => f a s'
  | (Raised e, s') => (Raised e, s')
  end.

Definition spied {A} (call : StrategyCall)
    (method : StrategyState -> outcome A * StrategyState) : C A := fun s =>
  let '(r, st') := method (strategy_state s) in
  (r, {| strategy_state := st'; trace := trace s ++ [call] |}).

Record SchemeEligibilityChecker := {
  scheme : Scheme;
  eligibility_definition : BaseEligibility;
}.

Definition _check_eligibility (self : SchemeEligibilityChecker) (applicant : Applicant)
  : C (bool * string) :=
  C_bind (spied (CheckEligibility applicant)
            (check_eligibility (eligibility_definition self) applicant))
    (fun '(is_eligible, message) => C_ret (is_eligible, message)).

Definition _calculate_benefits (self : SchemeEligibilityChecker) (applicant : Applicant)
  : C (list Benefit) :=
  C_bind (_check_eligibility self applicant) (fun verdict =>
    if fst verdict then
      spied (CalculateBenefits applicant)
        (calculate_benefits (eligibility_definition self) applicant)
    else C_ret []).

(** The number of times the spy saw [calculate_benefits]. *)
Fixpoint calculate_benefits_calls (tr : list StrategyCall) : nat :=
  match tr with
  | [] => O
  | CalculateBenefits _ :: tr' => S (calculate_benefits_calls tr')
  | CheckEligibility _ :: tr' => calculate_benefits_calls tr'
  end.

End Checker.

Arguments outcome : clear implicits.
Arguments BaseEligibility : clear implicits.
Arguments StrategyCall : clear implicits.
Arguments Spy : clear implicits.
Arguments SchemeEligibilityChecker : clear implicits.
Arguments Returned {Exn A} a.
Arguments Raised {Exn A} e.

(** ** Derived definitions used to state the properties *)

(** The clock set to [t]. *)
Definition at_time (t : Z) (w : World) : World :=
  {| admins := admins w; calls := calls w; clock := t |}.

(** The row that [increment_login_failure_counter], called at time [now],
    writes back for a row [a] (see [increment_run]).  [fresh] says that the
    call opens a new window; [current_count] is the local variable of that
    name as it stands when the lock is decided. *)
Definition row_after_failure (self : AdministratorService) (now : Z) (a : Administrator)
  : Administrator :=
  let fresh :=
    match failed_login_starttime a with
    | Some starttime =>
        (timedelta_minutes (PASSWORD_RETRIES_TIME_WINDOW_MINUTES self) <? now - starttime)%Z
    | None => true
    end in
  let current_count :=
    if fresh then consecutive_failed_logins a else consecutive_failed_logins a + 1 in
  {| id := id a; username := username a; password_hash := password_hash a; salt := salt a;
     account_locked :=
       if (MAX_PASSWORD_RETRIES self <=? current_count)%Z then true else account_locked a;
     consecutive_failed_logins := if fresh then 1 else consecutive_failed_logins a + 1;
     failed_login_starttime := if fresh then Some now else failed_login_starttime a |}.

(** The row that [reset_login_failure_counters] writes back. *)
Definition row_after_reset (a : Administrator) : Administrator :=
  {| id := id a; username := username a; password_hash := password_hash a; salt := salt a;
     account_locked := account_locked a;
     consecutive_failed_logins := 0;
     failed_login_starttime := None |}.

(** The row that [unlock_administrator_account] writes back. *)
Definition row_after_unlock (a : Administrator) : Administrator :=
  {| id := id a; username := username a; password_hash := password_hash a; salt := salt a;
     account_locked := false;
     consecutive_failed_logins := 0;
     failed_login_starttime := None |}.

(** Failed attempts on administrator [admin_id], one at each of [times]. *)
Fixpoint failures (self : AdministratorService) (admin_id : Z) (times : list Z) (w : World)
  : World :=
  match times with
  | [] => w
  | t :: times' =>
      failures self admin_id times'
        (snd (increment_login_failure_counter self admin_id (at_time t w)))
  end.

(** The state a freshly created or unlocked administrator is in. *)
Definition zeroed (a : Administrator) : Prop :=
  consecutive_failed_logins a = 0 /\ failed_login_starttime a = None /\ account_locked a = false.

(** The invariant of the data model. *)
Definition counters_consistent (a : Administrator) : Prop :=
  0 < consecutive_failed_logins a -> failed_login_starttime a <> None.

(** The operations that write the failure-tracking fields. *)
Inductive FailureTrackingOp :=
| OpIncrement (admin_id : Z)
| OpReset (admin_id : Z)
| OpUnlock (admin_id : Z)
| OpVerifyLogin (name password : string).

Definition run_op (self : AdministratorService) (op : FailureTrackingOp) (w : World) : World :=
  match op with
  | OpIncrement admin_id => snd (increment_login_failure_counter self admin_id w)
  | OpReset admin_id => snd (reset_login_failure_counters admin_id w)
  | OpUnlock admin_id => snd (unlock_administrator_account admin_id w)
  | OpVerifyLogin name password => snd (verify_login_credentials self name password w)
  end.

(** How one row changes under an operation that writes the failure-tracking
    fields. *)
Definition row_step (self : AdministratorService) (now : Z) (a a' : Administrator) : Prop :=
  a' = a \/ a' = row_after_failure self now a \/ a' = row_after_reset a
  \/ a' = row_after_unlock a.

(** The world after the lookup by username that opens [verify_login_credentials]. *)
Definition after_lookup (name : string) (w : World) : World :=
  {| admins := admins w; calls := calls w ++ [GetAdministratorByUsername name];
     clock := clock w |}.

(** The dictionary that [reset_login_failure_counters] builds. *)
Definition reset_data : gmap string Value :=
  {[ "consecutive_failed_logins" := VInt 0; "failed_login_starttime" := VNone ]}.

(** The message that [hash_password] digests. *)
Definition salted (password salt : string) : list Z :=
  encode_utf8 (salt +:+ ":" +:+ password).

(** Every working variable is a 32-bit word. *)
Definition regs_in_range (h : SHA256.regs) : Prop :=
  (0 <= SHA256.ra h < 2 ^ 32) /\ (0 <= SHA256.rb h < 2 ^ 32)
  /\ (0 <= SHA256.rc h < 2 ^ 32) /\ (0 <= SHA256.rd h < 2 ^ 32)
  /\ (0 <= SHA256.re h < 2 ^ 32) /\ (0 <= SHA256.rf h < 2 ^ 32)
  /\ (0 <= SHA256.rg h < 2 ^ 32) /\ (0 <= SHA256.rh h < 2 ^ 32).

(** The value of a hexadecimal digit. *)
Definition hexval (c : ascii) : Z :=
  let n := Z.of_N (N_of_ascii c) in if (n <? 58)%Z then n - 48 else n - 87.

(** *** Sample data *)

Definition sample_admin : Administrator :=
  {| id := 1; username := "root";
     password_hash := hash_password "Secret123" "9f86d081884c7d659a2feaa0c55ad015";
     salt := "9f86d081884c7d659a2feaa0c55ad015";
     account_locked := false; consecutive_failed_logins := 0;
     failed_login_starttime := None |}.

Definition sample_world : World :=
  {| admins := {[ 1 := sample_admin ]}; calls := []; clock := 0 |}.

Definition strict_service : AdministratorService :=
  {| MAX_PASSWORD_RETRIES := 1; PASSWORD_RETRIES_TIME_WINDOW_MINUTES := 10 |}.

Definition minute : Z := 60000000.

(** An unlocked row whose counter is at the default threshold and whose window
    opened at time 0; in [stale_world] that window expired a minute ago. *)
Definition stale_admin : Administrator :=
  {| id := 1; username := "root";
     password_hash := password_hash sample_admin; salt := salt sample_admin;
     account_locked := false; consecutive_failed_logins := 5;
     failed_login_starttime := Some 0 |}.

Definition stale_world : World :=
  {| admins := {[ 1 := stale_admin ]}; calls := []; clock := 11 * minute |}.

(** The same administrator, locked. *)
Definition locked_admin : Administrator :=
  {| id := 1; username := "root";
     password_hash := password_hash sample_admin; salt := salt sample_admin;
     account_locked := true; consecutive_failed_logins := 5;
     failed_login_starttime := Some 0 |}.

Definition locked_world : World :=
  {| admins := {[ 1 := locked_admin ]}; calls := []; clock := 5 * minute |}.

(** A strategy after the spec's scenario: eligible when the income is below
    2000; its state counts how often [calculate_benefits] ran. *)
Definition low_income_strategy : BaseEligibility Z (string * Z) nat unit :=
  {| check_eligibility := fun (income : Z) (ran : nat) =>
       if (income <? 2000)%Z
       then (Returned (true, "income is below 2000"), ran)
       else (Returned (false, "income is not below 2000"), ran);
     calculate_benefits := fun (income : Z) (ran : nat) =>
       (Returned [("cash grant", 2000 - income)], S ran) |}.

Definition low_income_checker : SchemeEligibilityChecker Z string (string * Z) nat unit :=
  {| scheme := "Low income support"; eligibility_definition := low_income_strategy |}.

(** A validator in the spirit of the spec's field-validation contract: a
    username must be present and non-empty. *)
Definition require_username (admin_data : gmap string string) (for_create_mode : bool)
  : bool * string :=
  match admin_data !! "username" with
  | Some name =>
      if String.eqb name EmptyString then (false, "Username is required.") else (true, "ok")
  | None => if for_create_mode then (false, "Username is required.") else (true, "ok")
  end.

(** ** The remaining methods of [AdministratorService] *)


Definition get_administrator_by_username (name : string) : M Administrator :=
  _get_admin_by_username name.

(** [update_administrator].  As for [create_administrator], [update_data] is
    a dictionary of text fields and [validate_administrator_data] is a
    parameter; the dictionary goes to the persistence layer as the caller
    gave it. *)
Section UpdateAdministrator.

Variable validate_administrator_data : gmap string string -> bool -> bool * string.

Definition update_administrator (admin_id : Z) (update_data : gmap string string)
  : M Administrator :=
  let '(isValid, msg) := validate_administrator_data update_data false in
  if negb isValid then raise (InvalidAdministratorDataException msg)
  else CRUDOperations.update_administrator admin_id (VStr <$> update_data).

End UpdateAdministrator.

(** ** Request-scoped database sessions ([api/__init__.py], [setup_db_session]
    and the handler for database errors)

    [g] is the application-context namespace, a dictionary from attribute
    names to values; the only attribute the code uses holds a session, named
    here by a handle.  What [SessionLocal()] returns is an input.  The calls
    made on sessions are logged in order. *)
Module Api.

Inductive SessionCall :=
| Close (session : Z)
| Rollback (session : Z).

Record AppContext := {
  g : gmap string Z;
  session_calls : list SessionCall;
}.

(** [create_session], the [before_request] hook. *)
Definition create_session (new_session : Z) (ctx : AppContext) : AppContext :=
  {| g := <["db_session" := new_session]> (g ctx); session_calls := session_calls ctx |}.

(** [remove_session], the [teardown_appcontext] hook:
    [g.pop('db_session', None)], then [close()] on what was there. *)
Definition remove_session (ctx : AppContext) : AppContext :=
  let db_session := g ctx !! "db_session" in
  let ctx := {| g := delete "db_session" (g ctx); session_calls := session_calls ctx |} in
  match db_session with
  | Some s => {| g := g ctx; session_calls := session_calls ctx ++ [Close s] |}
  | None => ctx
  end.

(** [handle_sqlalchemy_error]: the response is the JSON object and the
    status code.  The handler does not look at the exception it is given,
    so the embedding drops that argument. *)
Definition handle_sqlalchemy_error (ctx : AppContext)
  : (list (string * string) * Z) * AppContext :=
  let session := g ctx !! "db_session" in
  let ctx :=
    match session with
    | Some s => {| g := g ctx; session_calls := session_calls ctx ++ [Rollback s] |}
    | None => ctx
    end in
  (([("error", "A database error occurred.")], 500), ctx).

End Api.

(** ** Further derived definitions *)

(** No row of the table other than the one at key [k] carries the username. *)
Definition username_unique (name : string) (k : Z) (t : gmap Z Administrator) : Prop :=
  forall k' a', t !! k' = Some a' -> username a' = name -> k' = k.

(** No row of the table carries the username. *)
Definition username_free (name : string) (t : gmap Z Administrator) : Prop :=
  forall k' a', t !! k' = Some a' -> username a' <> name.

(** The row [create_administrator] stores for a username, a raw password and
    a salt, under the key [k] (see [create_administrator_run]). *)
Definition created_administrator (k : Z) (name raw_password salt_ : string) : Administrator :=
  {| id := k; username := name; password_hash := hash_password raw_password salt_;
     salt := salt_; account_locked := false; consecutive_failed_logins := 0;
     failed_login_starttime := None |}.

(** The row that [lock_administrator_account] writes back. *)
Definition row_after_lock (a : Administrator) : Administrator :=
  {| id := id a; username := username a; password_hash := password_hash a; salt := salt a;
     account_locked := true;
     consecutive_failed_logins := consecutive_failed_logins a;
     failed_login_starttime := failed_login_starttime a |}.

(** The dictionary that [unlock_administrator_account] builds. *)
Definition unlock_data : gmap string Value :=
  {[ "account_locked" := VBool false;
     "consecutive_failed_logins" := VInt 0;
     "failed_login_starttime" := VNone ]}.

(** The lock is sound for the counter: an unlocked row has fewer recorded
    failures than the threshold. *)
Definition below_threshold (self : AdministratorService) (a : Administrator) : Prop :=
  account_locked a = false -> consecutive_failed_logins a < MAX_PASSWORD_RETRIES self.

(** The operations of the login flow, which never unlock. *)
Definition login_flow_op (op : FailureTrackingOp) : bool :=
  match op with
  | OpUnlock _ => false
  | _ => true
  end.

Definition is_update (c : CrudCall) : bool :=
  match c with
  | UpdateAdministrator _ _ => true
  | _ => false
  end.

Definition is_lower_hex (c : ascii) : bool :=
  let n := Z.of_N (N_of_ascii c) in
  ((48 <=? n)%Z && (n <=? 57)%Z) || ((97 <=? n)%Z && (n <=? 102)%Z).


Fixpoint string_forall (f : ascii -> bool) (s : string) : bool :=
  match s with
  | EmptyString => true
  | String c s' => f c && string_forall f s'
  end.

(** *** Further sample data *)

Definition sample_salt : string := "9f86d081884c7d659a2feaa0c55ad015".

Definition alice_data : gmap string string :=
  {[ "username" := "alice"; "password_hash" := "Secret123" ]}.

(** * Properties *)

(** ** SHA-256 test vectors *)

Example round_constants :
  length SHA256.K = 64%nat
  /\ nth 0 SHA256.K 0 = 0x428a2f98
  /\ nth 63 SHA256.K 0 = 0xc67178f2
  /\ SHA256.ra SHA256.H0 = 0x6a09e667
  /\ SHA256.rh SHA256.H0 = 0x5be0cd19.
Proof. vm_compute. repeat split. Qed.

Example sha256_abc :
  SHA256.hexdigest (encode_utf8 "abc")
  = "ba7816bf8f01cfea414140de5dae2223b00361a396177a9cb410ff61f20015ad".
Proof. vm_compute. reflexivity. Qed.

Example sha256_empty :
  SHA256.hexdigest (encode_utf8 EmptyString)
  = "e3b0c44298fc1c149afbf4c8996fb92427ae41e4649b934ca495991b7852b855".
Proof. vm_compute. reflexivity. Qed.

Example sha256_two_blocks :
  SHA256.hexdigest (encode_utf8 "abcdbcdecdefdefgefghfghighijhijkijkljklmklmnlmnomnopnopq")
  = "248d6a61d20638b8e5c026930c3e6039a33ce45964ff2167f6ecedd419db06c1".
Proof. vm_compute. reflexivity. Qed.


(** ** What the persistence operations do *)

Lemma apply_update_lock (b : bool) (upd : gmap string Value) (a : Administrator) :
  apply_update (<["account_locked" := VBool b]> upd) a
  = {| id := id (apply_update upd a); username := username (apply_update upd a);
       password_hash := password_hash (apply_update upd a); salt := salt (apply_update upd a);
       account_locked := b;
       consecutive_failed_logins := consecutive_failed_logins (apply_update upd a);
       failed_login_starttime := failed_login_starttime (apply_update upd a) |}.
Proof.
  unfold apply_update; cbn [id username password_hash salt consecutive_failed_logins
                             failed_login_starttime].
  rewrite lookup_insert_eq.
  rewrite !lookup_insert_ne by discriminate.
  reflexivity.
Qed.

Lemma apply_update_fresh_window (t : Z) (a : Administrator) :
  apply_update {[ "consecutive_failed_logins" := VInt 1;
                  "failed_login_starttime" := VDatetime t ]} a
  = {| id := id a; username := username a; password_hash := password_hash a; salt := salt a;
       account_locked := account_locked a;
       consecutive_failed_logins := 1;
       failed_login_starttime := Some t |}.
Proof. reflexivity. Qed.

Lemma apply_update_count (n : Z) (a : Administrator) :
  apply_update {[ "consecutive_failed_logins" := VInt n ]} a
  = {| id := id a; username := username a; password_hash := password_hash a; salt := salt a;
       account_locked := account_locked a;
       consecutive_failed_logins := n;
       failed_login_starttime := failed_login_starttime a |}.
Proof. reflexivity. Qed.

Lemma apply_update_reset (a : Administrator) :
  apply_update {[ "consecutive_failed_logins" := VInt 0; "failed_login_starttime" := VNone ]} a
  = row_after_reset a.
Proof. reflexivity. Qed.

Lemma apply_update_unlock (a : Administrator) :
  apply_update {[ "account_locked" := VBool false;
                  "consecutive_failed_logins" := VInt 0;
                  "failed_login_starttime" := VNone ]} a
  = row_after_unlock a.
Proof. reflexivity. Qed.

Lemma update_administrator_run (i : Z) (upd : gmap string Value) (w : World) (a : Administrator) :
  admins w !! i = Some a ->
  CRUDOperations.update_administrator i upd w
  = (Ok (apply_update upd a),
     {| admins := <[i := apply_update upd a]> (admins w);
        calls := calls w ++ [UpdateAdministrator i upd];
        clock := clock w |}).
Proof.
  intros Hi. unfold CRUDOperations.update_administrator, mbind, M_bind, log_call, read_table,
    write_table, mret, M_ret; cbn.
  rewrite Hi. reflexivity.
Qed.

Lemma update_administrator_missing (i : Z) (upd : gmap string Value) (w : World) :
  admins w !! i = None ->
  CRUDOperations.update_administrator i upd w
  = (Raise (AdministratorNotFoundException "Administrator not found."),
     {| admins := admins w; calls := calls w ++ [UpdateAdministrator i upd]; clock := clock w |}).
Proof.
  intros Hi. unfold CRUDOperations.update_administrator, mbind, M_bind, log_call, read_table,
    write_table, mret, M_ret; cbn.
  rewrite Hi. reflexivity.
Qed.

Lemma get_admin_by_id_run (i : Z) (w : World) (a : Administrator) :
  admins w !! i = Some a ->
  _get_admin_by_id i w
  = (Ok a, {| admins := admins w; calls := calls w ++ [GetAdministrator i]; clock := clock w |}).
Proof.
  intros Hi. unfold _get_admin_by_id, CRUDOperations.get_administrator, mbind, M_bind, log_call,
    read_table, mret, M_ret; cbn.
  rewrite Hi. reflexivity.
Qed.

Lemma get_admin_by_id_missing (i : Z) (w : World) :
  admins w !! i = None ->
  _get_admin_by_id i w
  = (Raise (AdministratorNotFoundException "Administrator not found."),
     {| admins := admins w; calls := calls w ++ [GetAdministrator i]; clock := clock w |}).
Proof.
  intros Hi. unfold _get_admin_by_id, CRUDOperations.get_administrator, mbind, M_bind, log_call,
    read_table, mret, M_ret; cbn.
  rewrite Hi. reflexivity.
Qed.

(** One failed attempt, seen from outside: a lookup by id, then a single
    update that replaces the row by [row_after_failure]. *)
Lemma increment_run (self : AdministratorService) (i : Z) (w : World) (a : Administrator) :
  admins w !! i = Some a ->
  exists upd,
    increment_login_failure_counter self i w
    = (Ok tt,
       {| admins := <[i := row_after_failure self (clock w) a]> (admins w);
          calls := calls w ++ [GetAdministrator i; UpdateAdministrator i upd];
          clock := clock w |}).
Proof.
  intros Hi. unfold increment_login_failure_counter.
  unfold mbind at 1, M_bind at 1. rewrite (get_admin_by_id_run _ _ _ Hi).
  unfold mbind at 1, M_bind at 1, datetime_now; cbn [clock].
  set (w1 := {| admins := admins w; calls := calls w ++ [GetAdministrator i]; clock := clock w |}).
  assert (Hi1 : admins w1 !! i = Some a) by exact Hi.
  unfold row_after_failure.
  destruct (failed_login_starttime a) as [t0|] eqn:Hst.
  - destruct (timedelta_minutes (PASSWORD_RETRIES_TIME_WINDOW_MINUTES self) <? clock w - t0)%Z
      eqn:Hexp.
    + destruct (MAX_PASSWORD_RETRIES self <=? consecutive_failed_logins a)%Z eqn:Hmax;
        eexists; unfold mbind, M_bind;
        rewrite (update_administrator_run _ _ _ _ Hi1); cbn;
        rewrite <- app_assoc; cbn;
        rewrite ?apply_update_lock, ?apply_update_fresh_window; reflexivity.
    + destruct (MAX_PASSWORD_RETRIES self <=? consecutive_failed_logins a + 1)%Z eqn:Hmax;
        eexists; unfold mbind, M_bind;
        rewrite (update_administrator_run _ _ _ _ Hi1); cbn;
        rewrite <- app_assoc; cbn;
        rewrite ?apply_update_lock, ?apply_update_count; cbn; rewrite ?Hst; reflexivity.
  - destruct (MAX_PASSWORD_RETRIES self <=? consecutive_failed_logins a)%Z eqn:Hmax;
      eexists; unfold mbind, M_bind;
      rewrite (update_administrator_run _ _ _ _ Hi1); cbn;
      rewrite <- app_assoc; cbn;
      rewrite ?apply_update_lock, ?apply_update_fresh_window; reflexivity.
Qed.

(** ** The failed-login counter *)

Lemma increment_row (self : AdministratorService) (i : Z) (w : World) (a : Administrator) :
  admins w !! i = Some a ->
  fst (increment_login_failure_counter self i w) = Ok tt
  /\ admins (snd (increment_login_failure_counter self i w)) !! i
     = Some (row_after_failure self (clock w) a)
  /\ clock (snd (increment_login_failure_counter self i w)) = clock w.
Proof.
  intros Hi. destruct (increment_run self i w a Hi) as [upd ->]. cbn.
  split; [reflexivity|]. split; [apply lookup_insert_eq | reflexivity].
Qed.

(** C4: with a failure window open, a failed attempt strictly more than the
    retry window after [failed_login_starttime] writes counter 1 and start
    time now; an attempt at or before that bound adds exactly 1 to the counter
    (and keeps the start time). *)
Theorem window_expiry_restarts_count
    (self : AdministratorService) (i : Z) (w : World) (a : Administrator) (starttime : Z) :
  admins w !! i = Some a ->
  failed_login_starttime a = Some starttime ->
  exists a',
    fst (increment_login_failure_counter self i w) = Ok tt
    /\ admins (snd (increment_login_failure_counter self i w)) !! i = Some a'
    /\ (timedelta_minutes (PASSWORD_RETRIES_TIME_WINDOW_MINUTES self) < clock w - starttime ->
        consecutive_failed_logins a' = 1 /\ failed_login_starttime a' = Some (clock w))
    /\ (clock w - starttime <= timedelta_minutes (PASSWORD_RETRIES_TIME_WINDOW_MINUTES self) ->
        consecutive_failed_logins a' = consecutive_failed_logins a + 1
        /\ failed_login_starttime a' = Some starttime).
Proof.
  intros Hi Hst.
  destruct (increment_row self i w a Hi) as (Hr & Hrow & _).
  exists (row_after_failure self (clock w) a).
  split; [exact Hr|].
  split; [exact Hrow|].
  unfold row_after_failure; rewrite Hst; cbn.
  split; intros Hcmp.
  - apply Z.ltb_lt in Hcmp. rewrite Hcmp. auto.
  - apply Z.ltb_ge in Hcmp. rewrite Hcmp. auto.
Qed.

(** What decides the lock: the flag is raised exactly when the local
    [current_count] reaches the threshold, and [current_count] is the
    incremented counter only on the path that stays inside the window; on the
    two paths that write counter 1 it is still the counter as read. *)
Lemma lock_decision (self : AdministratorService) (now : Z) (a : Administrator) :
  account_locked a = false ->
  (account_locked (row_after_failure self now a) = true <->
   MAX_PASSWORD_RETRIES self <=
     match failed_login_starttime a with
     | Some starttime =>
         if (timedelta_minutes (PASSWORD_RETRIES_TIME_WINDOW_MINUTES self) <? now - starttime)%Z
         then consecutive_failed_logins a
         else consecutive_failed_logins a + 1
     | None => consecutive_failed_logins a
     end).
Proof.
  intros Hl. unfold row_after_failure; cbn. rewrite Hl.
  destruct (failed_login_starttime a) as [t0|];
    [destruct (_ <? _)%Z|]; cbn;
    (match goal with |- context [(?x <=? ?y)%Z] => destruct (Z.leb_spec x y) end);
    split; intros; try lia; congruence.
Qed.

(** Inside an open window the flag does follow the counter that is written. *)
Lemma lock_follows_counter_in_window
    (self : AdministratorService) (now starttime : Z) (a : Administrator) :
  account_locked a = false ->
  failed_login_starttime a = Some starttime ->
  now - starttime <= timedelta_minutes (PASSWORD_RETRIES_TIME_WINDOW_MINUTES self) ->
  (account_locked (row_after_failure self now a) = true <->
   MAX_PASSWORD_RETRIES self <= consecutive_failed_logins (row_after_failure self now a)).
Proof.
  intros Hl Hst Hin. rewrite (lock_decision self now a Hl).
  unfold row_after_failure; cbn. rewrite Hst.
  apply Z.ltb_ge in Hin. rewrite Hin. reflexivity.
Qed.

(** C2: the code at two inputs where the flag and the written counter
    disagree.  With [MAX_PASSWORD_RETRIES = 1], the first failure of a zeroed
    administrator writes counter 1, which reaches the threshold, and leaves the
    account unlocked.  With the default threshold 5, a failure after the window
    has expired, on an unlocked row whose counter is 5, writes counter 1, which
    is below the threshold, and locks the account. *)
Theorem lock_ignores_written_counter :
  (exists a',
     admins (snd (increment_login_failure_counter strict_service 1 sample_world)) !! 1 = Some a'
     /\ consecutive_failed_logins a' = 1
     /\ MAX_PASSWORD_RETRIES strict_service <= consecutive_failed_logins a'
     /\ account_locked a' = false)
  /\ (exists a',
     admins (snd (increment_login_failure_counter default_service 1 stale_world)) !! 1 = Some a'
     /\ consecutive_failed_logins a' = 1
     /\ consecutive_failed_logins a' < MAX_PASSWORD_RETRIES default_service
     /\ account_locked a' = true).
Proof.
  split.
  - destruct (increment_row strict_service 1 sample_world sample_admin eq_refl) as (_ & -> & _).
    eexists; split; [reflexivity|]. cbn. repeat split; lia.
  - destruct (increment_row default_service 1 stale_world stale_admin eq_refl) as (_ & -> & _).
    eexists; split; [reflexivity|]. cbn. repeat split; lia.
Qed.

(** Failed attempts that all fall inside the window that is already open. *)
Lemma failures_in_open_window (self : AdministratorService) (i starttime : Z) (times : list Z) :
  forall (w : World) (a : Administrator),
  admins w !! i = Some a ->
  failed_login_starttime a = Some starttime ->
  Forall (fun t => t - starttime <= timedelta_minutes (PASSWORD_RETRIES_TIME_WINDOW_MINUTES self))
         times ->
  exists a',
    admins (failures self i times w) !! i = Some a'
    /\ consecutive_failed_logins a' = consecutive_failed_logins a + Z.of_nat (length times)
    /\ failed_login_starttime a' = Some starttime
    /\ (account_locked a' = true <->
        account_locked a = true
        \/ (times <> [] /\
            MAX_PASSWORD_RETRIES self <= consecutive_failed_logins a + Z.of_nat (length times))).
Proof.
  induction times as [|t times IH]; intros w a Hi Hst Hin.
  - exists a. cbn. repeat split; try assumption; try lia.
    + intros H; left; exact H.
    + intros [H|[H _]]; [exact H | congruence].
  - apply Forall_cons_1 in Hin. destruct Hin as [Ht Hin].
    cbn [failures].
    destruct (increment_row self i (at_time t w) a Hi) as (_ & Hrow & _).
    cbn [clock at_time] in Hrow.
    set (a1 := row_after_failure self t a) in *.
    assert (Hfresh : (timedelta_minutes (PASSWORD_RETRIES_TIME_WINDOW_MINUTES self) <? t - starttime)%Z
                     = false) by (apply Z.ltb_ge; exact Ht).
    assert (Hc1 : consecutive_failed_logins a1 = consecutive_failed_logins a + 1).
    { unfold a1, row_after_failure; cbn. rewrite Hst, Hfresh. reflexivity. }
    assert (Hs1 : failed_login_starttime a1 = Some starttime).
    { unfold a1, row_after_failure; cbn. rewrite Hst, Hfresh. reflexivity. }
    assert (Hl1 : account_locked a1 = true <->
                  account_locked a = true
                  \/ MAX_PASSWORD_RETRIES self <= consecutive_failed_logins a + 1).
    { unfold a1, row_after_failure; cbn. rewrite Hst, Hfresh.
      destruct (Z.leb_spec (MAX_PASSWORD_RETRIES self) (consecutive_failed_logins a + 1));
        split; intros; try tauto; try lia.
      destruct H0; [assumption | lia]. }
    destruct (IH _ a1 Hrow Hs1 Hin) as (a' & Ha' & Hc' & Hs' & Hl').
    exists a'. split; [exact Ha'|]. split; [|split; [exact Hs'|]].
    + rewrite Hc', Hc1. cbn [length]. lia.
    + rewrite Hl', Hl1, Hc1. cbn [length].
      split.
      * intros [[H|H]|[Hne H]]; [left; exact H | right | right]; (split; [discriminate | lia]).
      * intros [H|[_ H]]; [left; left; exact H|].
        destruct times as [|t' times']; [left; right; cbn in H; lia|].
        right. split; [discriminate | cbn [length] in *; lia].
Qed.

(** The lockout boundary for thresholds of at least 2: after [max_retries]
    failures in one window the account is locked, after [max_retries - 1] it is
    not, and the counter is the number of failures. *)
Lemma lockout_boundary (self : AdministratorService) (i t1 : Z) (times : list Z)
    (w : World) (a : Administrator) :
  admins w !! i = Some a ->
  zeroed a ->
  2 <= MAX_PASSWORD_RETRIES self ->
  Forall (fun t => t - t1 <= timedelta_minutes (PASSWORD_RETRIES_TIME_WINDOW_MINUTES self))
         times ->
  exists a',
    admins (failures self i (t1 :: times) w) !! i = Some a'
    /\ consecutive_failed_logins a' = Z.of_nat (length (t1 :: times))
    /\ (Z.of_nat (length (t1 :: times)) = MAX_PASSWORD_RETRIES self -> account_locked a' = true)
    /\ (Z.of_nat (length (t1 :: times)) = MAX_PASSWORD_RETRIES self - 1 ->
        account_locked a' = false).
Proof.
  intros Hi (Hc & Hst & Hl) Hmax Hin.
  cbn [failures].
  destruct (increment_row self i (at_time t1 w) a Hi) as (_ & Hrow & _).
  cbn [clock at_time] in Hrow.
  set (a1 := row_after_failure self t1 a) in *.
  assert (Ha1 : consecutive_failed_logins a1 = 1 /\ failed_login_starttime a1 = Some t1
                /\ account_locked a1 = false).
  { unfold a1, row_after_failure; cbn. rewrite Hst, Hc, Hl.
    destruct (Z.leb_spec (MAX_PASSWORD_RETRIES self) 0); [lia | auto]. }
  destruct Ha1 as (Hc1 & Hs1 & Hl1).
  destruct (failures_in_open_window self i t1 times _ a1 Hrow Hs1 Hin)
    as (a' & Ha' & Hc' & Hs' & Hl').
  exists a'. split; [exact Ha'|]. rewrite Hc1 in *. cbn [length].
  split; [lia|]. split; intros Hn.
  - apply Hl'. right. split; [|lia]. intros ->. cbn in Hn. lia.
  - destruct (account_locked a') eqn:E; [|reflexivity].
    destruct (proj1 Hl' eq_refl) as [H|[_ H]]; [congruence | lia].
Qed.

(** C3: the code at [MAX_PASSWORD_RETRIES = 1].  One failure of a zeroed
    administrator is [max_retries] failures in one window; the counter is 1
    and the account is not locked. *)
Theorem single_retry_threshold_not_locked :
  zeroed sample_admin
  /\ Z.of_nat (length [0]) = MAX_PASSWORD_RETRIES strict_service
  /\ exists a',
       admins (failures strict_service 1 [0] sample_world) !! 1 = Some a'
       /\ consecutive_failed_logins a' = 1
       /\ account_locked a' = false.
Proof.
  split; [repeat split|]. split; [reflexivity|].
  cbn [failures].
  destruct (increment_row strict_service 1 (at_time 0 sample_world) sample_admin eq_refl)
    as (_ & -> & _).
  eexists; split; [reflexivity|]. split; reflexivity.
Qed.

(** The scenario of the spec with the default configuration: four failures
    within the window leave counter 4 and the account unlocked, a fifth locks
    it. *)
Lemma lockout_boundary_default :
  (exists a',
     admins (failures default_service 1 [0; minute; 2 * minute; 3 * minute] sample_world) !! 1
       = Some a'
     /\ consecutive_failed_logins a' = 4 /\ account_locked a' = false)
  /\ (exists a',
     admins (failures default_service 1 [0; minute; 2 * minute; 3 * minute; 4 * minute]
               sample_world) !! 1 = Some a'
     /\ consecutive_failed_logins a' = 5 /\ account_locked a' = true).
Proof.
  split.
  - destruct (lockout_boundary default_service 1 0 [minute; 2 * minute; 3 * minute]
                sample_world sample_admin) as (a' & Ha' & Hc & _ & Hl).
    + reflexivity.
    + repeat split.
    + cbn; lia.
    + repeat constructor; cbn; unfold timedelta_minutes, minute; lia.
    + exists a'. split; [exact Ha'|]. split; [exact Hc | apply Hl; reflexivity].
  - destruct (lockout_boundary default_service 1 0 [minute; 2 * minute; 3 * minute; 4 * minute]
                sample_world sample_admin) as (a' & Ha' & Hc & Hl & _).
    + reflexivity.
    + repeat split.
    + cbn; lia.
    + repeat constructor; cbn; unfold timedelta_minutes, minute; lia.
    + exists a'. split; [exact Ha'|]. split; [exact Hc | apply Hl; reflexivity].
Qed.

(** ** Reset, unlock and login *)

Lemma reset_run (i : Z) (w : World) (a : Administrator) :
  admins w !! i = Some a ->
  reset_login_failure_counters i w
  = (Ok tt,
     {| admins := <[i := row_after_reset a]> (admins w);
        calls := calls w ++ [UpdateAdministrator i reset_data];
        clock := clock w |}).
Proof.
  intros Hi. unfold reset_login_failure_counters, mbind, M_bind.
  rewrite (update_administrator_run _ _ _ _ Hi), apply_update_reset. reflexivity.
Qed.

Lemma reset_missing (i : Z) (w : World) :
  admins w !! i = None ->
  admins (snd (reset_login_failure_counters i w)) = admins w.
Proof.
  intros Hi. unfold reset_login_failure_counters, mbind, M_bind.
  rewrite (update_administrator_missing _ _ _ Hi). reflexivity.
Qed.

Lemma unlock_run (i : Z) (w : World) (a : Administrator) :
  admins w !! i = Some a ->
  exists log,
    unlock_administrator_account i w
    = (Ok tt, {| admins := <[i := row_after_unlock a]> (admins w); calls := log;
                 clock := clock w |}).
Proof.
  intros Hi. unfold unlock_administrator_account.
  unfold mbind at 1, M_bind at 1. rewrite (get_admin_by_id_run _ _ _ Hi).
  unfold mbind, M_bind.
  erewrite update_administrator_run by exact Hi.
  rewrite apply_update_unlock. eexists. reflexivity.
Qed.

Lemma unlock_missing (i : Z) (w : World) :
  admins w !! i = None ->
  admins (snd (unlock_administrator_account i w)) = admins w.
Proof.
  intros Hi. unfold unlock_administrator_account.
  unfold mbind at 1, M_bind at 1. rewrite (get_admin_by_id_missing _ _ Hi). reflexivity.
Qed.

Lemma increment_missing (self : AdministratorService) (i : Z) (w : World) :
  admins w !! i = None ->
  admins (snd (increment_login_failure_counter self i w)) = admins w.
Proof.
  intros Hi. unfold increment_login_failure_counter.
  unfold mbind at 1, M_bind at 1. rewrite (get_admin_by_id_missing _ _ Hi). reflexivity.
Qed.

Lemma get_administrator_by_username_run (name : string) (w : World) :
  exists r, CRUDOperations.get_administrator_by_username name w = (Ok r, after_lookup name w).
Proof.
  unfold CRUDOperations.get_administrator_by_username, mbind, M_bind, log_call, read_table,
    mret, M_ret; cbn.
  eexists. reflexivity.
Qed.

(** C5: when the username resolves to a locked administrator,
    [verify_login_credentials] returns none whatever the password, the
    administrators table is what it was, and the only persistence call made is
    the lookup by username: no update is issued, so counter, start time and
    lock flag keep their values. *)
Theorem locked_account_short_circuit
    (self : AdministratorService) (name password : string) (w : World) (a : Administrator) :
  fst (CRUDOperations.get_administrator_by_username name w) = Ok (Some a) ->
  account_locked a = true ->
  verify_login_credentials self name password w
  = (Ok None,
     {| admins := admins w;
        calls := calls w ++ [GetAdministratorByUsername name];
        clock := clock w |}).
Proof.
  intros Hfind Hlocked.
  destruct (get_administrator_by_username_run name w) as [r Hr].
  rewrite Hr in Hfind; cbn in Hfind. injection Hfind as ->.
  unfold verify_login_credentials, _get_admin_by_username.
  unfold mbind at 1, M_bind at 1. unfold mbind at 1, M_bind at 1.
  rewrite Hr. cbn. rewrite Hlocked. reflexivity.
Qed.

(** C8: on an existing administrator, [reset_login_failure_counters] issues
    exactly one persistence call, an update, after which the counter is 0 and
    the start time is null, while the lock flag and every other field of the
    row, and every other row, are as before. *)
Theorem reset_only_touches_counters (i : Z) (w : World) (a : Administrator) :
  admins w !! i = Some a ->
  exists a' update_data,
    reset_login_failure_counters i w
    = (Ok tt, {| admins := <[i := a']> (admins w);
                 calls := calls w ++ [UpdateAdministrator i update_data];
                 clock := clock w |})
    /\ consecutive_failed_logins a' = 0
    /\ failed_login_starttime a' = None
    /\ account_locked a' = account_locked a
    /\ id a' = id a
    /\ username a' = username a
    /\ password_hash a' = password_hash a
    /\ salt a' = salt a
    /\ forall j, j <> i ->
         admins (snd (reset_login_failure_counters i w)) !! j = admins w !! j.
Proof.
  intros Hi. exists (row_after_reset a), reset_data.
  rewrite (reset_run i w a Hi). cbn.
  repeat split; try reflexivity.
  intros j Hj. apply lookup_insert_ne. congruence.
Qed.

Lemma row_step_insert (self : AdministratorService) (now : Z) (t : gmap Z Administrator)
    (j : Z) (aj r : Administrator) (i : Z) (a' : Administrator) :
  t !! j = Some aj ->
  row_step self now aj r ->
  <[j := r]> t !! i = Some a' ->
  exists a, t !! i = Some a /\ row_step self now a a'.
Proof.
  intros Hj Hstep Hi. destruct (decide (j = i)) as [->|Hne].
  - rewrite lookup_insert_eq in Hi. injection Hi as <-. eauto.
  - rewrite lookup_insert_ne in Hi by exact Hne. exists a'. split; [exact Hi | left; reflexivity].
Qed.

Lemma row_step_same (self : AdministratorService) (now : Z) (t t' : gmap Z Administrator)
    (i : Z) (a' : Administrator) :
  t' = t -> t' !! i = Some a' -> exists a, t !! i = Some a /\ row_step self now a a'.
Proof. intros -> Hi. exists a'. split; [exact Hi | left; reflexivity]. Qed.

Lemma increment_rows (self : AdministratorService) (j : Z) (w : World) (i : Z)
    (a' : Administrator) :
  admins (snd (increment_login_failure_counter self j w)) !! i = Some a' ->
  exists a, admins w !! i = Some a /\ row_step self (clock w) a a'.
Proof.
  destruct (admins w !! j) as [aj|] eqn:Hj.
  - destruct (increment_run self j w aj Hj) as [upd ->]. cbn.
    apply (row_step_insert _ _ _ _ aj); [exact Hj | right; left; reflexivity].
  - apply row_step_same, increment_missing, Hj.
Qed.

Lemma reset_rows (self : AdministratorService) (j : Z) (w : World) (i : Z)
    (a' : Administrator) :
  admins (snd (reset_login_failure_counters j w)) !! i = Some a' ->
  exists a, admins w !! i = Some a /\ row_step self (clock w) a a'.
Proof.
  destruct (admins w !! j) as [aj|] eqn:Hj.
  - rewrite (reset_run j w aj Hj). cbn.
    apply (row_step_insert _ _ _ _ aj); [exact Hj | right; right; left; reflexivity].
  - apply row_step_same, reset_missing, Hj.
Qed.

Lemma unlock_rows (self : AdministratorService) (j : Z) (w : World) (i : Z)
    (a' : Administrator) :
  admins (snd (unlock_administrator_account j w)) !! i = Some a' ->
  exists a, admins w !! i = Some a /\ row_step self (clock w) a a'.
Proof.
  destruct (admins w !! j) as [aj|] eqn:Hj.
  - destruct (unlock_run j w aj Hj) as [log ->]. cbn.
    apply (row_step_insert _ _ _ _ aj); [exact Hj | right; right; right; reflexivity].
  - apply row_step_same, unlock_missing, Hj.
Qed.

Lemma verify_login_rows (self : AdministratorService) (name password : string) (w : World)
    (i : Z) (a' : Administrator) :
  admins (snd (verify_login_credentials self name password w)) !! i = Some a' ->
  exists a, admins w !! i = Some a /\ row_step self (clock w) a a'.
Proof.
  destruct (get_administrator_by_username_run name w) as [r Hr].
  unfold verify_login_credentials, _get_admin_by_username.
  unfold mbind at 1, M_bind at 1. unfold mbind at 1, M_bind at 1.
  rewrite Hr.
  destruct r as [admin|]; [|apply row_step_same; reflexivity].
  cbn [mret M_ret].
  destruct (account_locked admin); cbn [negb]; [apply row_step_same; reflexivity|].
  destruct (verify_password _ _ _).
  - unfold mbind at 1, M_bind at 1.
    intros H. apply (reset_rows self (id admin) (after_lookup name w)).
    destruct (reset_login_failure_counters (id admin) (after_lookup name w)) as [ [ [] | e ] w2 ];
      exact H.
  - unfold mbind at 1, M_bind at 1.
    intros H. apply (increment_rows self (id admin) (after_lookup name w)).
    destruct (increment_login_failure_counter self (id admin) (after_lookup name w))
      as [ [ [] | e ] w2 ]; exact H.
Qed.

Lemma run_op_rows (self : AdministratorService) (op : FailureTrackingOp) (w : World)
    (i : Z) (a' : Administrator) :
  admins (run_op self op w) !! i = Some a' ->
  exists a, admins w !! i = Some a /\ row_step self (clock w) a a'.
Proof.
  destruct op; cbn [run_op].
  - apply increment_rows.
  - apply reset_rows.
  - apply unlock_rows.
  - apply verify_login_rows.
Qed.

(** Counters never become negative: the operations write 0, 1, or one more
    than what they read. *)
Lemma counter_stays_nonnegative
    (self : AdministratorService) (op : FailureTrackingOp) (w : World)
    (i : Z) (a' : Administrator) :
  admins (run_op self op w) !! i = Some a' ->
  exists a,
    admins w !! i = Some a
    /\ (0 <= consecutive_failed_logins a -> 0 <= consecutive_failed_logins a').
Proof.
  intros H. destruct (run_op_rows self op w i a' H) as (a & Ha & Hstep).
  exists a. split; [exact Ha|].
  destruct Hstep as [-> | [-> | [-> | ->] ] ]; cbn; try lia.
  destruct (match failed_login_starttime a with Some _ => _ | None => _ end); lia.
Qed.

(** C7: every row that exists after one of the four operations existed
    before it, and between the two states
    - the invariant "a positive counter has a start time" is preserved;
    - a positive counter is never brought to 0 with the start time left set;
    - a start time is never cleared with the counter left different from 0. *)
Theorem failure_tracking_fields_move_together
    (self : AdministratorService) (op : FailureTrackingOp) (w : World)
    (i : Z) (a' : Administrator) :
  admins (run_op self op w) !! i = Some a' ->
  exists a,
    admins w !! i = Some a
    /\ (counters_consistent a -> counters_consistent a')
    /\ (0 < consecutive_failed_logins a -> consecutive_failed_logins a' = 0 ->
        failed_login_starttime a' = None)
    /\ (failed_login_starttime a <> None -> failed_login_starttime a' = None ->
        consecutive_failed_logins a' = 0).
Proof.
  intros H. destruct (run_op_rows self op w i a' H) as (a & Ha & Hstep).
  exists a. split; [exact Ha|].
  unfold counters_consistent.
  destruct Hstep as [-> | [-> | [-> | ->] ] ].
  - repeat split; [tauto | lia | tauto].
  - unfold row_after_failure; cbn.
    destruct (failed_login_starttime a) as [t0|]; [destruct (_ <? _)%Z|]; cbn;
      repeat split; intros; try discriminate; try lia; congruence.
  - cbn. repeat split; intros; try reflexivity; lia.
  - cbn. repeat split; intros; try reflexivity; lia.
Qed.

(** ** The eligibility checker *)

Lemma calculate_benefits_calls_app {Applicant : Type} (tr1 tr2 : list (StrategyCall Applicant)) :
  calculate_benefits_calls (tr1 ++ tr2)
  = (calculate_benefits_calls tr1 + calculate_benefits_calls tr2)%nat.
Proof.
  induction tr1 as [|[?|?] tr1 IH]; cbn; [reflexivity | exact IH | rewrite IH; reflexivity].
Qed.

(** C1: [_calculate_benefits] asks the strategy for the verdict once; the spy
    sees one more call of [calculate_benefits] exactly when the verdict is
    eligible, and then the result and the strategy's state are those of that
    call; when the verdict is ineligible the result is the empty list, the
    only call seen is the check, and the strategy's state is as the check left
    it. *)
Theorem benefits_computed_iff_eligible
    {Applicant Scheme Benefit StrategyState Exn : Type}
    (self : SchemeEligibilityChecker Applicant Scheme Benefit StrategyState Exn)
    (applicant : Applicant) (s : Spy Applicant StrategyState) :
  let verdict := check_eligibility (eligibility_definition self) applicant (strategy_state s) in
  let run := _calculate_benefits self applicant s in
  (calculate_benefits_calls (trace (snd run)) = S (calculate_benefits_calls (trace s))
   <-> exists message, fst verdict = Returned (true, message))
  /\ (calculate_benefits_calls (trace (snd run)) = calculate_benefits_calls (trace s)
      <-> ~ exists message, fst verdict = Returned (true, message))
  /\ (forall message, fst verdict = Returned (true, message) ->
        (fst run, strategy_state (snd run))
          = calculate_benefits (eligibility_definition self) applicant (snd verdict)
        /\ trace (snd run)
           = (trace s ++ [CheckEligibility applicant; CalculateBenefits applicant])%list)
  /\ (forall message, fst verdict = Returned (false, message) ->
        fst run = Returned []
        /\ strategy_state (snd run) = snd verdict
        /\ trace (snd run) = (trace s ++ [CheckEligibility applicant])%list).
Proof.
  cbv zeta.
  unfold _calculate_benefits, _check_eligibility, C_bind, C_ret, spied.
  destruct (check_eligibility (eligibility_definition self) applicant (strategy_state s))
    as [[[[|] message]|e] st1]; cbn [fst snd strategy_state trace].
  - destruct (calculate_benefits (eligibility_definition self) applicant st1) as [r st2] eqn:Hcalc.
    cbn [fst snd strategy_state trace].
    rewrite <- app_assoc, calculate_benefits_calls_app. cbn.
    repeat split; intros; try discriminate; eauto; try lia.
    exfalso; eauto.
  - rewrite calculate_benefits_calls_app. cbn.
    repeat split; intros; try discriminate; try lia.
    + destruct H as [m Hm]; discriminate.
    + intros [m Hm]; discriminate.
  - rewrite calculate_benefits_calls_app. cbn.
    repeat split; intros; try discriminate; try lia.
    + destruct H as [m Hm]; discriminate.
    + intros [m Hm]; discriminate.
Qed.

(** The spec's scenario: income 2500 against a scheme that requires an income
    below 2000. *)
Lemma benefits_computed_iff_eligible_witness :
  let s := {| strategy_state := O; trace := [] |} in
  fst (_calculate_benefits low_income_checker 2500 s) = Returned []
  /\ strategy_state (snd (_calculate_benefits low_income_checker 2500 s)) = O
  /\ trace (snd (_calculate_benefits low_income_checker 2500 s)) = [CheckEligibility 2500].
Proof.
  intros s.
  exact (proj2 (proj2 (proj2 (benefits_computed_iff_eligible low_income_checker 2500 s)))
           "income is not below 2000" eq_refl).
Defined.

(** ** Creating an administrator *)

(** C9: when the validation that [create_administrator] runs (on the
    dictionary that now holds the digest and the salt) rejects the data, the
    method raises [InvalidAdministratorDataException] with the validator's
    message and hands back the world untouched: no persistence call is in the
    log and no row was created or changed. *)
Theorem rejected_data_is_never_persisted
    (validate_administrator_data : gmap string string -> bool -> bool * string)
    (admin_data : gmap string string) (urandom16_hex raw_password : string) (w : World) :
  admin_data !! "password_hash" = Some raw_password ->
  fst (validate_administrator_data
         (<["salt" := urandom16_hex]>
            (<["password_hash" := hash_password raw_password urandom16_hex]> admin_data))
         true) = false ->
  create_administrator validate_administrator_data admin_data urandom16_hex w
  = (Raise (InvalidAdministratorDataException
              (snd (validate_administrator_data
                      (<["salt" := urandom16_hex]>
                         (<["password_hash" := hash_password raw_password urandom16_hex]>
                            admin_data))
                      true))),
     w).
Proof.
  intros Hpw Hrej. unfold create_administrator, getitem, mbind, M_bind.
  rewrite Hpw. cbn [mret M_ret].
  destruct (validate_administrator_data _ true) as [isValid msg].
  cbn in Hrej. subst isValid. reflexivity.
Qed.

Lemma rejected_data_is_never_persisted_witness :
  create_administrator require_username
    {[ "username" := EmptyString; "password_hash" := "Secret123" ]}
    "9f86d081884c7d659a2feaa0c55ad015" sample_world
  = (Raise (InvalidAdministratorDataException "Username is required."), sample_world).
Proof.
  exact (rejected_data_is_never_persisted require_username
           {[ "username" := EmptyString; "password_hash" := "Secret123" ]}
           "9f86d081884c7d659a2feaa0c55ad015" "Secret123" sample_world eq_refl eq_refl).
Defined.

(** Without a ["password_hash"] entry the method fails before it validates
    anything, again without a persistence call. *)
Lemma create_administrator_without_password
    (validate_administrator_data : gmap string string -> bool -> bool * string)
    (admin_data : gmap string string) (urandom16_hex : string) (w : World) :
  admin_data !! "password_hash" = None ->
  create_administrator validate_administrator_data admin_data urandom16_hex w
  = (Raise (KeyError "password_hash"), w).
Proof.
  intros Hpw. unfold create_administrator, getitem, mbind, M_bind. rewrite Hpw. reflexivity.
Qed.

(** Data that passes validation does reach the persistence layer, with the
    digest and never the raw password. *)
Lemma accepted_data_is_persisted
    (validate_administrator_data : gmap string string -> bool -> bool * string)
    (admin_data : gmap string string) (urandom16_hex raw_password name : string) (w : World) :
  admin_data !! "password_hash" = Some raw_password ->
  admin_data !! "username" = Some name ->
  fst (validate_administrator_data
         (<["salt" := urandom16_hex]>
            (<["password_hash" := hash_password raw_password urandom16_hex]> admin_data))
         true) = true ->
  calls (snd (create_administrator validate_administrator_data admin_data urandom16_hex w))
  = (calls w ++ [CreateAdministrator name (hash_password raw_password urandom16_hex)
                   urandom16_hex])%list.
Proof.
  intros Hpw Hname Hok. unfold create_administrator, getitem.
  unfold mbind at 1, M_bind at 1.
  rewrite Hpw. cbn [mret M_ret].
  destruct (validate_administrator_data _ true) as [isValid msg].
  cbn in Hok. subst isValid. cbn [negb].
  unfold mbind at 1, M_bind at 1.
  rewrite !lookup_insert_ne by discriminate. rewrite Hname.
  reflexivity.
Qed.

(** ** Password digests *)

(** *** Digests are 256-bit numbers, and the hexadecimal form is faithful *)

Lemma add32_range (x y : Z) : 0 <= SHA256.add32 x y < 2 ^ 32.
Proof. unfold SHA256.add32, SHA256.wrap32. apply Z.mod_pos_bound. lia. Qed.

Lemma compress_in_range (h : SHA256.regs) (block : list Z) :
  regs_in_range (SHA256.compress h block).
Proof.
  unfold SHA256.compress, regs_in_range; cbn [SHA256.ra SHA256.rb SHA256.rc SHA256.rd
    SHA256.re SHA256.rf SHA256.rg SHA256.rh].
  repeat split; apply add32_range.
Qed.

Lemma fold_compress_in_range (blocks : list (list Z)) :
  forall h, regs_in_range h -> regs_in_range (fold_left SHA256.compress blocks h).
Proof.
  induction blocks as [|b blocks IH]; intros h Hh; cbn [fold_left].
  - exact Hh.
  - apply IH, compress_in_range.
Qed.

Lemma digest_range (msg : list Z) : 0 <= SHA256.digest msg < 2 ^ 256.
Proof.
  unfold SHA256.digest, SHA256.state.
  assert (H0ok : regs_in_range SHA256.H0).
  { unfold regs_in_range, SHA256.H0, SHA256.frac_square_root, SHA256.wrap32;
      cbn [SHA256.ra SHA256.rb SHA256.rc SHA256.rd SHA256.re SHA256.rf SHA256.rg SHA256.rh].
    repeat split; apply Z.mod_pos_bound; lia. }
  pose proof (fold_compress_in_range (SHA256.group 64 (SHA256.pad msg)) _ H0ok) as Hr.
  destruct (fold_left SHA256.compress _ _) as [a b c d e f g h].
  unfold regs_in_range in Hr; cbn in Hr.
  unfold SHA256.regs_value; cbn [fold_left SHA256.ra SHA256.rb SHA256.rc SHA256.rd
    SHA256.re SHA256.rf SHA256.rg SHA256.rh].
  lia.
Qed.

Lemma hexval_hexchar (d : Z) : 0 <= d < 16 -> hexval (SHA256.hexchar d) = d.
Proof.
  intros Hd.
  assert (Hc : d = 0 \/ d = 1 \/ d = 2 \/ d = 3 \/ d = 4 \/ d = 5 \/ d = 6 \/ d = 7 \/ d = 8
               \/ d = 9 \/ d = 10 \/ d = 11 \/ d = 12 \/ d = 13 \/ d = 14 \/ d = 15) by lia.
  repeat (destruct Hc as [-> | Hc]; [reflexivity|]). subst d. reflexivity.
Qed.

Lemma hex_acc_inj (n : nat) :
  forall x y acc acc',
  0 <= x < 16 ^ Z.of_nat n -> 0 <= y < 16 ^ Z.of_nat n ->
  SHA256.hex_acc n x acc = SHA256.hex_acc n y acc' ->
  x = y /\ acc = acc'.
Proof.
  induction n as [|n IH]; intros x y acc acc' Hx Hy Heq.
  - cbn in *. split; [lia | exact Heq].
  - rewrite Nat2Z.inj_succ, Z.pow_succ_r in Hx, Hy by lia.
    cbn [SHA256.hex_acc] in Heq.
    apply IH in Heq.
    + destruct Heq as [Hdiv Hacc]. injection Hacc as Hc ->.
      split; [|reflexivity].
      pose proof (Z.mod_pos_bound x 16 ltac:(lia)) as Hxm.
      pose proof (Z.mod_pos_bound y 16 ltac:(lia)) as Hym.
      apply (f_equal hexval) in Hc.
      rewrite !hexval_hexchar in Hc by assumption.
      rewrite (Z.div_mod x 16), (Z.div_mod y 16) by lia. congruence.
    + split; [apply Z.div_pos; lia | apply Z.div_lt_upper_bound; lia].
    + split; [apply Z.div_pos; lia | apply Z.div_lt_upper_bound; lia].
Qed.

Lemma hex64_inj (x y : Z) :
  0 <= x < 2 ^ 256 -> 0 <= y < 2 ^ 256 -> SHA256.hex 64 x = SHA256.hex 64 y -> x = y.
Proof.
  intros Hx Hy Heq.
  apply (hex_acc_inj 64 x y EmptyString EmptyString); [exact Hx | exact Hy | exact Heq].
Qed.

Lemma verify_password_digest (p p' s : string) :
  verify_password (hash_password p s) p' s = true
  <-> SHA256.digest (salted p' s) = SHA256.digest (salted p s).
Proof.
  unfold verify_password, hash_password, SHA256.hexdigest. fold (salted p s) (salted p' s).
  rewrite String.eqb_eq. split.
  - intros H. symmetry. apply hex64_inj; [apply digest_range | apply digest_range | exact H].
  - intros ->. reflexivity.
Qed.

(** *** Pigeonhole over an interval of integers *)

Lemma bounded_search (f : Z -> Z) (v n : Z) :
  0 <= n ->
  (exists i, 0 <= i < n /\ f i = v) \/ (forall i, 0 <= i < n -> f i <> v).
Proof.
  intros Hn. pattern n. apply natlike_ind; [| |exact Hn].
  - right. intros i Hi. lia.
  - intros m Hm [(i & Hi & Hfi)|Hnone].
    + left. exists i. split; [lia | exact Hfi].
    + destruct (Z.eq_dec (f m) v) as [Heq|Hne].
      * left. exists m. split; [lia | exact Heq].
      * right. intros i Hi. destruct (Z.eq_dec i m) as [->|Him]; [exact Hne|].
        apply Hnone. lia.
Qed.

Lemma pigeonhole (n : Z) :
  0 <= n ->
  forall f : Z -> Z,
  (forall i, 0 <= i <= n -> 0 <= f i < n) ->
  exists i j, 0 <= i < j /\ j <= n /\ f i = f j.
Proof.
  intros Hn. pattern n. apply natlike_ind; [| |exact Hn]; clear n Hn.
  - intros f Hf. specialize (Hf 0). lia.
  - intros n Hn IH f Hf.
    destruct (bounded_search f (f (Z.succ n)) (Z.succ n) ltac:(lia))
      as [(i & Hi & Hfi)|Hnone].
    + exists i, (Z.succ n). split; [lia|]. split; [lia | exact Hfi].
    + set (v := f (Z.succ n)) in *.
      assert (Hv : 0 <= v < Z.succ n) by (apply Hf; lia).
      set (g := fun i => if Z.eq_dec (f i) n then v else f i).
      destruct (IH g) as (i & j & Hij & Hj & Hg).
      { intros i Hi. unfold g.
        pose proof (Hf i ltac:(lia)) as Hfi. pose proof (Hnone i ltac:(lia)) as Hni.
        destruct (Z.eq_dec (f i) n); lia. }
      exists i, j. split; [exact Hij|]. split; [lia|].
      pose proof (Hnone i ltac:(lia)) as Hni. pose proof (Hnone j ltac:(lia)) as Hnj.
      unfold g in Hg.
      destruct (Z.eq_dec (f i) n), (Z.eq_dec (f j) n); congruence.
Qed.

(** Two different passwords with the same digest under the same salt exist,
    whatever the salt: there are more decimal numerals below [2 ^ 256 + 1]
    than digests. *)
Lemma digest_collision (s : string) :
  exists p p', p <> p' /\ SHA256.digest (salted p' s) = SHA256.digest (salted p s).
Proof.
  destruct (pigeonhole (2 ^ 256) ltac:(lia) (fun i => SHA256.digest (salted (pretty i) s)))
    as (i & j & Hij & _ & Heq).
  - intros i _. apply digest_range.
  - exists (pretty i), (pretty j). split; [|symmetry; exact Heq].
    intros Hp. apply (inj pretty) in Hp. lia.
Qed.

(** C6, as stated, fails: the second half would make [hash_password]
    injective in the password. *)
Lemma verify_password_rejects_all_others_fails :
  ~ (forall p s p' : string,
       verify_password (hash_password p s) p s = true
       /\ (p' <> p -> verify_password (hash_password p s) p' s = false)).
Proof.
  intros Hclaim.
  destruct (digest_collision "salt") as (p & p' & Hne & Hcol).
  apply verify_password_digest in Hcol.
  destruct (Hclaim p "salt" p') as [_ Hrej].
  rewrite Hrej in Hcol by congruence. discriminate.
Qed.

(** C6, amended: verifying the password that was hashed succeeds; verifying
    any password fails exactly when its SHA-256 digest (under the same salt)
    differs from that of the password that was hashed. *)
Theorem verify_password_decides_digest_equality (p s p' : string) :
  verify_password (hash_password p s) p s = true
  /\ (verify_password (hash_password p s) p' s = false
      <-> SHA256.digest (salted p' s) <> SHA256.digest (salted p s)).
Proof.
  split.
  - apply verify_password_digest. reflexivity.
  - rewrite <- verify_password_digest.
    destruct (verify_password (hash_password p s) p' s); split; congruence.
Qed.

(** C10: there are distinct (password, salt) pairs with the same digest, the
    second password being accepted by [verify_password] against the digest of
    the first under the second salt: salt "a" with password "b:c" and salt
    "a:b" with password "c".  In general [hash_password p s] and
    [hash_password p' s'] agree whenever the strings s ":" p and s' ":" p'
    are equal. *)
Theorem separator_in_salt_collides :
  (exists p s p' s',
     p <> p' /\ s <> s'
     /\ hash_password p s = hash_password p' s'
     /\ verify_password (hash_password p s) p' s' = true)
  /\ (forall p s p' s' : string,
        s +:+ ":" +:+ p = s' +:+ ":" +:+ p' ->
        hash_password p s = hash_password p' s'
        /\ verify_password (hash_password p s) p' s' = true).
Proof.
  assert (Hgen : forall p s p' s' : string,
             s +:+ ":" +:+ p = s' +:+ ":" +:+ p' ->
             hash_password p s = hash_password p' s'
             /\ verify_password (hash_password p s) p' s' = true).
  { intros p s p' s' Heq. unfold verify_password, hash_password. rewrite Heq.
    split; [reflexivity | apply String.eqb_refl]. }
  split; [|exact Hgen].
  exists "b:c", "a", "c", "a:b".
  split; [discriminate|]. split; [discriminate|].
  apply Hgen. reflexivity.
Qed.

Lemma separator_in_salt_collides_witness :
  hash_password "b:c" "a" = hash_password "c" "a:b"
  /\ verify_password (hash_password "b:c" "a") "c" "a:b" = true.
Proof. exact (proj2 separator_in_salt_collides "b:c" "a" "c" "a:b" eq_refl). Defined.

(** ** Instances on the sample data *)

Lemma window_expiry_restarts_count_witness :
  exists a',
    admins (snd (increment_login_failure_counter default_service 1 stale_world)) !! 1 = Some a'
    /\ consecutive_failed_logins a' = 1
    /\ failed_login_starttime a' = Some (11 * minute).
Proof.
  destruct (window_expiry_restarts_count default_service 1 stale_world stale_admin 0
              eq_refl eq_refl) as (a' & _ & Ha' & Hexpired & _).
  exists a'. split; [exact Ha'|]. apply Hexpired. vm_compute. reflexivity.
Defined.

Lemma locked_account_short_circuit_witness :
  verify_password (password_hash locked_admin) "Secret123" (salt locked_admin) = true
  /\ verify_login_credentials default_service "root" "Secret123" locked_world
     = (Ok None,
        {| admins := admins locked_world;
           calls := [GetAdministratorByUsername "root"];
           clock := clock locked_world |}).
Proof.
  split; [vm_compute; reflexivity|].
  apply (locked_account_short_circuit default_service "root" "Secret123" locked_world
           locked_admin); reflexivity.
Defined.

Lemma failure_tracking_fields_move_together_witness :
  exists a,
    admins sample_world !! 1 = Some a
    /\ (counters_consistent a ->
        counters_consistent (row_after_failure default_service 0 sample_admin))
    /\ (0 < consecutive_failed_logins a ->
        consecutive_failed_logins (row_after_failure default_service 0 sample_admin) = 0 ->
        failed_login_starttime (row_after_failure default_service 0 sample_admin) = None)
    /\ (failed_login_starttime a <> None ->
        failed_login_starttime (row_after_failure default_service 0 sample_admin) = None ->
        consecutive_failed_logins (row_after_failure default_service 0 sample_admin) = 0).
Proof.
  apply (failure_tracking_fields_move_together default_service (OpVerifyLogin "root" "guess")
           sample_world 1).
  vm_compute. reflexivity.
Defined.

Lemma reset_only_touches_counters_witness :
  exists a' update_data,
    reset_login_failure_counters 1 stale_world
    = (Ok tt, {| admins := <[1 := a']> (admins stale_world);
                 calls := calls stale_world ++ [UpdateAdministrator 1 update_data];
                 clock := clock stale_world |})
    /\ consecutive_failed_logins a' = 0
    /\ failed_login_starttime a' = None
    /\ account_locked a' = account_locked stale_admin
    /\ id a' = id stale_admin
    /\ username a' = username stale_admin
    /\ password_hash a' = password_hash stale_admin
    /\ salt a' = salt stale_admin
    /\ forall j, j <> 1 ->
         admins (snd (reset_login_failure_counters 1 stale_world)) !! j
         = admins stale_world !! j.
Proof. exact (reset_only_touches_counters 1 stale_world stale_admin eq_refl). Defined.

(** * Further properties *)

(** ** Looking administrators up *)

Lemma find_by_username (name : string) (k : Z) (t : gmap Z Administrator) (a : Administrator) :
  t !! k = Some a ->
  username a = name ->
  username_unique name k t ->
  List.find (fun '(_, a) => String.eqb (username a) name) (map_to_list t) = Some (k, a).
Proof.
  intros Hk Hname Huniq.
  destruct (List.find _ (map_to_list t)) as [[k' a']|] eqn:Hfind.
  - apply find_some in Hfind. destruct Hfind as [Hin Heq].
    apply list_elem_of_In, elem_of_map_to_list in Hin.
    apply String.eqb_eq in Heq.
    assert (k' = k) by (eapply Huniq; eassumption). subst k'.
    congruence.
  - exfalso.
    assert (Hin : In (k, a) (map_to_list t)).
    { apply list_elem_of_In, elem_of_map_to_list. exact Hk. }
    apply (find_none _ _ Hfind) in Hin. cbn in Hin.
    rewrite Hname, String.eqb_refl in Hin. discriminate.
Qed.

Lemma find_by_username_none (name : string) (t : gmap Z Administrator) :
  username_free name t ->
  List.find (fun '(_, a) => String.eqb (username a) name) (map_to_list t) = None.
Proof.
  intros Hfree.
  destruct (List.find _ (map_to_list t)) as [[k' a']|] eqn:Hfind; [|reflexivity].
  apply find_some in Hfind. destruct Hfind as [Hin Heq].
  apply list_elem_of_In, elem_of_map_to_list in Hin.
  apply String.eqb_eq in Heq. exfalso. exact (Hfree _ _ Hin Heq).
Qed.

Lemma crud_lookup_unique (name : string) (k : Z) (w : World) (a : Administrator) :
  admins w !! k = Some a ->
  username a = name ->
  username_unique name k (admins w) ->
  CRUDOperations.get_administrator_by_username name w = (Ok (Some a), after_lookup name w).
Proof.
  intros Hk Hname Huniq.
  unfold CRUDOperations.get_administrator_by_username, mbind, M_bind, log_call, read_table,
    mret, M_ret; cbn.
  rewrite (find_by_username name k _ a Hk Hname Huniq). reflexivity.
Qed.

Lemma crud_lookup_found (name : string) (w : World) (a : Administrator) :
  fst (CRUDOperations.get_administrator_by_username name w) = Ok (Some a) ->
  username a = name /\ exists k, admins w !! k = Some a.
Proof.
  unfold CRUDOperations.get_administrator_by_username, mbind, M_bind, log_call, read_table,
    mret, M_ret; cbn.
  destruct (List.find _ (map_to_list (admins w))) as [[k a']|] eqn:Hfind; cbn; [|discriminate].
  intros H. injection H as ->.
  apply find_some in Hfind. destruct Hfind as [Hin Heq].
  apply list_elem_of_In, elem_of_map_to_list in Hin.
  apply String.eqb_eq in Heq. eauto.
Qed.

Lemma get_admin_by_username_missing (name : string) (w : World) :
  username_free name (admins w) ->
  _get_admin_by_username name w
  = (Raise (AdministratorNotFoundException
              ("Administrator with Isername " +:+ name +:+ " not found.")),
     after_lookup name w).
Proof.
  intros Hfree. unfold _get_admin_by_username.
  unfold mbind at 1, M_bind at 1.
  unfold CRUDOperations.get_administrator_by_username, mbind, M_bind, log_call, read_table,
    mret, M_ret; cbn.
  rewrite (find_by_username_none name _ Hfree). reflexivity.
Qed.

(** X1: [get_administrator_by_username] returns the one administrator that
    carries the name, logging a single lookup; when no row carries it, it
    raises [AdministratorNotFoundException] with the name in the message.
    Either way the table is not modified. *)
Theorem get_by_username_finds_the_row (name : string) (w : World) :
  (forall k a,
     admins w !! k = Some a -> username a = name -> username_unique name k (admins w) ->
     get_administrator_by_username name w = (Ok a, after_lookup name w))
  /\ (username_free name (admins w) ->
      get_administrator_by_username name w
      = (Raise (AdministratorNotFoundException
                  ("Administrator with Isername " +:+ name +:+ " not found.")),
         after_lookup name w)).
Proof.
  split.
  - intros k a Hk Hname Huniq.
    unfold get_administrator_by_username, _get_admin_by_username, mbind, M_bind.
    rewrite (crud_lookup_unique name k w a Hk Hname Huniq). reflexivity.
  - intros Hfree. apply get_admin_by_username_missing, Hfree.
Qed.

(** ** Login *)

(** The three ways [verify_login_credentials] can go once the lookup has
    answered. *)
Lemma verify_login_after_lookup
    (self : AdministratorService) (name password : string) (w : World) (a : Administrator) :
  CRUDOperations.get_administrator_by_username name w = (Ok (Some a), after_lookup name w) ->
  verify_login_credentials self name password w
  = if negb (account_locked a) then
      if verify_password (password_hash a) password (salt a) then
        match reset_login_failure_counters (id a) (after_lookup name w) with
        | (Ok _, w') => (Ok (Some a), w')
        | (Raise e, w') => (Raise e, w')
        end
      else
        match increment_login_failure_counter self (id a) (after_lookup name w) with
        | (Ok _, w') => (Ok None, w')
        | (Raise e, w') => (Raise e, w')
        end
    else (Ok None, after_lookup name w).
Proof.
  intros Hr. unfold verify_login_credentials, _get_admin_by_username.
  unfold mbind at 1, M_bind at 1. unfold mbind at 1, M_bind at 1.
  rewrite Hr. cbn [mret M_ret].
  destruct (negb (account_locked a)); [|reflexivity].
  destruct (verify_password _ _ _); reflexivity.
Qed.

(** X2: a login only ever succeeds for an unlocked administrator whose stored
    digest matches the password: whenever [verify_login_credentials] returns
    an administrator, it is the one the username resolved to, that
    administrator was not locked, and [verify_password] accepted the
    password. *)
Theorem login_is_sound
    (self : AdministratorService) (name password : string) (w : World) (a : Administrator) :
  fst (verify_login_credentials self name password w) = Ok (Some a) ->
  fst (CRUDOperations.get_administrator_by_username name w) = Ok (Some a)
  /\ username a = name
  /\ account_locked a = false
  /\ verify_password (password_hash a) password (salt a) = true.
Proof.
  destruct (get_administrator_by_username_run name w) as [r Hr].
  destruct r as [a0|].
  - rewrite (verify_login_after_lookup self name password w a0 Hr), Hr.
    destruct (account_locked a0) eqn:Hl; cbn [negb]; [cbn; discriminate|].
    destruct (verify_password _ _ _) eqn:Hv.
    + destruct (reset_login_failure_counters _ _) as [ [ [] | e ] w' ]; cbn; [|discriminate].
      intros H. injection H as <-.
      destruct (crud_lookup_found name w a0) as [Hn _]; [rewrite Hr; reflexivity|].
      auto.
    + destruct (increment_login_failure_counter _ _ _) as [ [ [] | e ] w' ]; cbn; discriminate.
  - unfold verify_login_credentials, _get_admin_by_username.
    unfold mbind at 1, M_bind at 1. unfold mbind at 1, M_bind at 1.
    rewrite Hr. cbn. discriminate.
Qed.

(** X3: a successful login.  For an unlocked administrator stored under its
    own id, whose username is unique and whose digest matches, the method
    returns the administrator, makes exactly two persistence calls (the
    lookup and one update), and leaves the row zeroed: counter 0, no start
    time, still unlocked; every other row is as before. *)
Theorem login_success_zeroes_counters
    (self : AdministratorService) (name password : string) (w : World) (a : Administrator) :
  admins w !! id a = Some a ->
  username a = name ->
  username_unique name (id a) (admins w) ->
  account_locked a = false ->
  verify_password (password_hash a) password (salt a) = true ->
  verify_login_credentials self name password w
  = (Ok (Some a),
     {| admins := <[id a := row_after_reset a]> (admins w);
        calls := calls w ++ [GetAdministratorByUsername name;
                             UpdateAdministrator (id a) reset_data];
        clock := clock w |})
  /\ zeroed (row_after_reset a).
Proof.
  intros Hk Hname Huniq Hl Hv. split.
  - rewrite (verify_login_after_lookup self name password w a
               (crud_lookup_unique name (id a) w a Hk Hname Huniq)).
    rewrite Hl, Hv. cbn [negb].
    rewrite (reset_run (id a) (after_lookup name w) a Hk). cbn.
    rewrite <- app_assoc. reflexivity.
  - unfold zeroed; cbn. auto.
Qed.

(** X4: a failed login.  For an unlocked administrator stored under its own
    id, whose username is unique, a password that [verify_password] rejects
    makes the method return none and count one failure: after a lookup by
    name, a lookup by id and one update, the row is the one
    [increment_login_failure_counter] writes at the current time, which always
    has a start time; every other row is as before. *)
Theorem login_failure_counts_one
    (self : AdministratorService) (name password : string) (w : World) (a : Administrator) :
  admins w !! id a = Some a ->
  username a = name ->
  username_unique name (id a) (admins w) ->
  account_locked a = false ->
  verify_password (password_hash a) password (salt a) = false ->
  exists update_data,
    verify_login_credentials self name password w
    = (Ok None,
       {| admins := <[id a := row_after_failure self (clock w) a]> (admins w);
          calls := calls w ++ [GetAdministratorByUsername name; GetAdministrator (id a);
                               UpdateAdministrator (id a) update_data];
          clock := clock w |})
    /\ failed_login_starttime (row_after_failure self (clock w) a) <> None.
Proof.
  intros Hk Hname Huniq Hl Hv.
  destruct (increment_run self (id a) (after_lookup name w) a Hk) as [upd Hinc].
  exists upd. split.
  - rewrite (verify_login_after_lookup self name password w a
               (crud_lookup_unique name (id a) w a Hk Hname Huniq)).
    rewrite Hl, Hv. cbn [negb]. rewrite Hinc. cbn.
    rewrite <- app_assoc. reflexivity.
  - unfold row_after_failure; cbn.
    destruct (failed_login_starttime a) as [t0|]; [destruct (_ <? _)%Z|]; discriminate.
Qed.

(** X5: an unknown username.  When no row carries the name,
    [verify_login_credentials] raises [AdministratorNotFoundException]
    whatever the password; the lookup is the only persistence call and the
    table is not modified. *)
Theorem login_unknown_username
    (self : AdministratorService) (name password : string) (w : World) :
  username_free name (admins w) ->
  verify_login_credentials self name password w
  = (Raise (AdministratorNotFoundException
              ("Administrator with Isername " +:+ name +:+ " not found.")),
     {| admins := admins w;
        calls := calls w ++ [GetAdministratorByUsername name];
        clock := clock w |}).
Proof.
  intros Hfree.
  unfold verify_login_credentials. unfold mbind at 1, M_bind at 1.
  rewrite (get_admin_by_username_missing name w Hfree). reflexivity.
Qed.

(** ** Creating an administrator, and logging in afterwards *)



Lemma create_administrator_run
    (validate_administrator_data : gmap string string -> bool -> bool * string)
    (admin_data : gmap string string) (urandom16_hex raw_password name : string) (w : World) :
  admin_data !! "password_hash" = Some raw_password ->
  admin_data !! "username" = Some name ->
  fst (validate_administrator_data
         (<["salt" := urandom16_hex]>
            (<["password_hash" := hash_password raw_password urandom16_hex]> admin_data))
         true) = true ->
  create_administrator validate_administrator_data admin_data urandom16_hex w
  = (Ok (created_administrator (CRUDOperations.next_id (admins w)) name raw_password
           urandom16_hex),
     {| admins := <[CRUDOperations.next_id (admins w) :=
                      created_administrator (CRUDOperations.next_id (admins w)) name
                        raw_password urandom16_hex]> (admins w);
        calls := calls w ++ [CreateAdministrator name
                               (hash_password raw_password urandom16_hex) urandom16_hex];
        clock := clock w |}).
Proof.
  intros Hpw Hname Hok. unfold create_administrator, getitem.
  unfold mbind at 1, M_bind at 1.
  rewrite Hpw. cbn [mret M_ret].
  destruct (validate_administrator_data _ true) as [isValid msg].
  cbn in Hok. subst isValid. cbn [negb].
  unfold mbind at 1, M_bind at 1.
  rewrite !lookup_insert_ne by discriminate. rewrite Hname.
  reflexivity.
Qed.


(** X7: create, then log in.  After [create_administrator] succeeded for a
    username no row carried, [verify_login_credentials] with that username and
    the raw password returns the new administrator, and with any password
    that [verify_password] rejects against the stored digest it returns
    none. *)
Theorem created_administrator_can_log_in
    (self : AdministratorService)
    (validate_administrator_data : gmap string string -> bool -> bool * string)
    (admin_data : gmap string string) (urandom16_hex raw_password name : string) (w : World) :
  admin_data !! "password_hash" = Some raw_password ->
  admin_data !! "username" = Some name ->
  fst (validate_administrator_data
         (<["salt" := urandom16_hex]>
            (<["password_hash" := hash_password raw_password urandom16_hex]> admin_data))
         true) = true ->
  username_free name (admins w) ->
  exists a w',
    create_administrator validate_administrator_data admin_data urandom16_hex w = (Ok a, w')
    /\ fst (verify_login_credentials self name raw_password w') = Ok (Some a)
    /\ forall other,
         verify_password (hash_password raw_password urandom16_hex) other urandom16_hex = false ->
         fst (verify_login_credentials self name other w') = Ok None.
Proof.
  intros Hpw Hname Hok Hfree.
  eexists _, _. split; [apply (create_administrator_run _ _ _ _ _ _ Hpw Hname Hok)|].
  set (k := CRUDOperations.next_id (admins w)).
  set (a := created_administrator k name raw_password urandom16_hex).
  set (w' := {| admins := <[k := a]> (admins w); calls := _; clock := clock w |}).
  assert (Hk : admins w' !! id a = Some a) by apply lookup_insert_eq.
  assert (Huniq : username_unique name (id a) (admins w')).
  { intros k' a' Hk' Hn'. cbn in *. destruct (decide (k = k')) as [->|Hne]; [reflexivity|].
    rewrite lookup_insert_ne in Hk' by exact Hne. exfalso. exact (Hfree _ _ Hk' Hn'). }
  assert (Hlook : CRUDOperations.get_administrator_by_username name w'
                  = (Ok (Some a), after_lookup name w'))
    by (apply (crud_lookup_unique name (id a) w' a Hk eq_refl Huniq)).
  split.
  - rewrite (verify_login_after_lookup self name raw_password w' a Hlook).
    cbn [account_locked a created_administrator negb password_hash salt].
    assert (Hv : verify_password (hash_password raw_password urandom16_hex) raw_password
                   urandom16_hex = true) by apply String.eqb_refl.
    rewrite Hv. rewrite (reset_run (id a) (after_lookup name w') a Hk). reflexivity.
  - intros other Hv.
    rewrite (verify_login_after_lookup self name other w' a Hlook).
    cbn [account_locked a created_administrator negb password_hash salt].
    rewrite Hv.
    destruct (increment_run self (id a) (after_lookup name w') a Hk) as [upd ->].
    reflexivity.
Qed.


(** ** Locking and unlocking *)

Lemma apply_update_force_lock (a : Administrator) :
  apply_update {[ "account_locked" := VBool true ]} a = row_after_lock a.
Proof. reflexivity. Qed.

Lemma lock_run (i : Z) (w : World) (a : Administrator) :
  admins w !! i = Some a ->
  lock_administrator_account i w
  = (Ok tt,
     {| admins := <[i := row_after_lock a]> (admins w);
        calls := calls w ++ [GetAdministrator i;
                             UpdateAdministrator i {[ "account_locked" := VBool true ]}];
        clock := clock w |}).
Proof.
  intros Hi. unfold lock_administrator_account.
  unfold mbind at 1, M_bind at 1. rewrite (get_admin_by_id_run _ _ _ Hi).
  unfold mbind, M_bind.
  erewrite update_administrator_run by exact Hi.
  rewrite apply_update_force_lock. cbn. rewrite <- app_assoc. reflexivity.
Qed.

Lemma unique_after_insert (name : string) (k : Z) (t : gmap Z Administrator)
    (a' : Administrator) :
  username_unique name k t -> username_unique name k (<[k := a']> t).
Proof.
  intros Huniq k' a0 Hk' Hn. destruct (decide (k = k')) as [->|Hne]; [reflexivity|].
  rewrite lookup_insert_ne in Hk' by exact Hne. exact (Huniq _ _ Hk' Hn).
Qed.

(** X9: [unlock_administrator_account] on an existing administrator looks
    the row up and writes it back once, unlocked and zeroed, with id,
    username, digest and salt as they were; no other row changes. *)
Theorem unlock_zeroes_and_unlocks (i : Z) (w : World) (a : Administrator) :
  admins w !! i = Some a ->
  exists a',
    unlock_administrator_account i w
    = (Ok tt, {| admins := <[i := a']> (admins w);
                 calls := calls w ++ [GetAdministrator i; UpdateAdministrator i unlock_data];
                 clock := clock w |})
    /\ zeroed a'
    /\ id a' = id a /\ username a' = username a
    /\ password_hash a' = password_hash a /\ salt a' = salt a
    /\ forall j, j <> i -> admins (snd (unlock_administrator_account i w)) !! j = admins w !! j.
Proof.
  intros Hi. exists (row_after_unlock a).
  assert (Hrun : unlock_administrator_account i w
                 = (Ok tt, {| admins := <[i := row_after_unlock a]> (admins w);
                              calls := calls w ++ [GetAdministrator i;
                                                   UpdateAdministrator i unlock_data];
                              clock := clock w |})).
  { unfold unlock_administrator_account.
    unfold mbind at 1, M_bind at 1. rewrite (get_admin_by_id_run _ _ _ Hi).
    unfold mbind, M_bind.
    erewrite update_administrator_run by exact Hi.
    rewrite apply_update_unlock. cbn. rewrite <- app_assoc. reflexivity. }
  rewrite Hrun. split; [reflexivity|]. cbn.
  unfold zeroed; cbn. repeat split.
  intros j Hj. apply lookup_insert_ne. congruence.
Qed.

(** X10: an administrative lock blocks every login.  After
    [lock_administrator_account] on an administrator stored under its own id
    with a unique username, the flag is set while counter, start time and
    credentials are as before, and [verify_login_credentials] returns none
    for every password without touching the table. *)
Theorem forced_lock_blocks_login
    (self : AdministratorService) (name password : string) (w : World) (a : Administrator) :
  admins w !! id a = Some a ->
  username a = name ->
  username_unique name (id a) (admins w) ->
  let w1 := snd (lock_administrator_account (id a) w) in
  admins w1 !! id a = Some (row_after_lock a)
  /\ fst (verify_login_credentials self name password w1) = Ok None
  /\ admins (snd (verify_login_credentials self name password w1)) = admins w1.
Proof.
  intros Hk Hname Huniq. cbv zeta.
  rewrite (lock_run (id a) w a Hk). cbn [snd].
  set (w1 := {| admins := _; calls := _; clock := _ |}).
  assert (Hk1 : admins w1 !! id (row_after_lock a) = Some (row_after_lock a))
    by apply lookup_insert_eq.
  assert (Hlook := crud_lookup_unique name (id a) w1 (row_after_lock a) Hk1 Hname
                     (unique_after_insert _ _ _ _ Huniq)).
  split; [exact Hk1|].
  rewrite (verify_login_after_lookup self name password w1 _ Hlook). cbn.
  split; reflexivity.
Qed.

(** X11: unlocking restores the login.  Whatever the lock flag and the
    counters of an administrator stored under its own id with a unique
    username, after [unlock_administrator_account] a login with a password
    matching the stored digest returns the administrator, unlocked and
    zeroed. *)
Theorem unlock_restores_login
    (self : AdministratorService) (name password : string) (w : World) (a : Administrator) :
  admins w !! id a = Some a ->
  username a = name ->
  username_unique name (id a) (admins w) ->
  verify_password (password_hash a) password (salt a) = true ->
  fst (verify_login_credentials self name password
         (snd (unlock_administrator_account (id a) w)))
  = Ok (Some (row_after_unlock a)).
Proof.
  intros Hk Hname Huniq Hv.
  destruct (unlock_run (id a) w a Hk) as [log ->]. cbn [snd].
  set (w1 := {| admins := _; calls := log; clock := _ |}).
  assert (Hk1 : admins w1 !! id (row_after_unlock a) = Some (row_after_unlock a))
    by apply lookup_insert_eq.
  assert (Hlook := crud_lookup_unique name (id a) w1 (row_after_unlock a) Hk1 Hname
                     (unique_after_insert _ _ _ _ Huniq)).
  rewrite (verify_login_after_lookup self name password w1 _ Hlook).
  cbn [account_locked row_after_unlock negb password_hash salt].
  rewrite Hv.
  rewrite (reset_run _ (after_lookup name w1) _ Hk1). reflexivity.
Qed.

(** ** What the login flow preserves *)

Lemma login_flow_rows (self : AdministratorService) (op : FailureTrackingOp) (w : World)
    (i : Z) (a' : Administrator) :
  login_flow_op op = true ->
  admins (run_op self op w) !! i = Some a' ->
  exists a, admins w !! i = Some a
            /\ (a' = a \/ a' = row_after_failure self (clock w) a \/ a' = row_after_reset a).
Proof.
  intros Hop H.
  assert (Hinc : forall j w0 a0,
             admins (snd (increment_login_failure_counter self j w0)) !! i = Some a0 ->
             exists a, admins w0 !! i = Some a
                       /\ (a0 = a \/ a0 = row_after_failure self (clock w0) a
                           \/ a0 = row_after_reset a)).
  { intros j w0 a0 H0. destruct (admins w0 !! j) as [aj|] eqn:Hj.
    - destruct (increment_run self j w0 aj Hj) as [upd Hrun]. rewrite Hrun in H0. cbn in H0.
      destruct (decide (j = i)) as [->|Hne].
      + rewrite lookup_insert_eq in H0. injection H0 as <-. eauto.
      + rewrite lookup_insert_ne in H0 by exact Hne. eauto.
    - rewrite (increment_missing self j w0 Hj) in H0. eauto. }
  assert (Hres : forall j w0 a0,
             admins (snd (reset_login_failure_counters j w0)) !! i = Some a0 ->
             exists a, admins w0 !! i = Some a
                       /\ (a0 = a \/ a0 = row_after_failure self (clock w0) a
                           \/ a0 = row_after_reset a)).
  { intros j w0 a0 H0. destruct (admins w0 !! j) as [aj|] eqn:Hj.
    - rewrite (reset_run j w0 aj Hj) in H0. cbn in H0.
      destruct (decide (j = i)) as [->|Hne].
      + rewrite lookup_insert_eq in H0. injection H0 as <-. eauto.
      + rewrite lookup_insert_ne in H0 by exact Hne. eauto.
    - rewrite (reset_missing j w0 Hj) in H0. eauto. }
  destruct op as [j|j|j|name password]; cbn [run_op] in H; try discriminate.
  - exact (Hinc _ _ _ H).
  - exact (Hres _ _ _ H).
  - destruct (get_administrator_by_username_run name w) as [r Hr].
    destruct r as [a0|].
    + rewrite (verify_login_after_lookup self name password w a0 Hr) in H.
      destruct (negb (account_locked a0)); [|eauto].
      destruct (verify_password _ _ _).
      * apply (Hres (id a0) (after_lookup name w)).
        destruct (reset_login_failure_counters _ _) as [ [ [] | e ] w2 ]; exact H.
      * apply (Hinc (id a0) (after_lookup name w)).
        destruct (increment_login_failure_counter _ _ _) as [ [ [] | e ] w2 ]; exact H.
    + revert H. unfold verify_login_credentials, _get_admin_by_username.
      unfold mbind at 1, M_bind at 1. unfold mbind at 1, M_bind at 1.
      rewrite Hr. cbn. eauto.
Qed.

(** X12: the login flow never unlocks.  Under [increment_login_failure_counter],
    [reset_login_failure_counters] and [verify_login_credentials], a row that
    was locked is still locked afterwards, and id, username, digest and salt
    of every row are unchanged; only [unlock_administrator_account] clears
    the flag. *)
Theorem login_flow_never_unlocks
    (self : AdministratorService) (op : FailureTrackingOp) (w : World)
    (i : Z) (a' : Administrator) :
  login_flow_op op = true ->
  admins (run_op self op w) !! i = Some a' ->
  exists a,
    admins w !! i = Some a
    /\ (account_locked a = true -> account_locked a' = true)
    /\ id a' = id a /\ username a' = username a
    /\ password_hash a' = password_hash a /\ salt a' = salt a.
Proof.
  intros Hop H. destruct (login_flow_rows self op w i a' Hop H) as (a & Ha & Hstep).
  exists a. split; [exact Ha|].
  destruct Hstep as [-> | [-> | ->] ]; cbn; repeat split; try tauto.
  intros ->. destruct (_ <=? _)%Z; reflexivity.
Qed.

(** X13: for a threshold of at least 2 the lock is sound for the counter.
    If an unlocked row has fewer recorded failures than
    [MAX_PASSWORD_RETRIES], this is still so after any of the four operations
    that write the failure-tracking fields: an unlocked account never carries
    a counter at or above the threshold. *)
Theorem unlocked_rows_stay_below_threshold
    (self : AdministratorService) (op : FailureTrackingOp) (w : World)
    (i : Z) (a' : Administrator) :
  2 <= MAX_PASSWORD_RETRIES self ->
  admins (run_op self op w) !! i = Some a' ->
  exists a,
    admins w !! i = Some a /\ (below_threshold self a -> below_threshold self a').
Proof.
  intros Hmax H. destruct (run_op_rows self op w i a' H) as (a & Ha & Hstep).
  exists a. split; [exact Ha|].
  unfold below_threshold.
  destruct Hstep as [-> | [-> | [-> | ->] ] ]; cbn; try tauto; try (intros; lia).
  intros Hinv.
  destruct (account_locked a) eqn:Hl.
  - destruct (_ <=? _)%Z; discriminate.
  - specialize (Hinv eq_refl).
    destruct (match failed_login_starttime a with Some _ => _ | None => _ end);
      (match goal with |- context [(?x <=? ?y)%Z] => destruct (Z.leb_spec x y) end);
      intros; try discriminate; lia.
Qed.

(** X14: resetting and unlocking are idempotent on the table: doing either
    twice in a row leaves the administrators as doing it once. *)
Theorem reset_and_unlock_are_idempotent (i : Z) (w : World) :
  admins (snd (reset_login_failure_counters i (snd (reset_login_failure_counters i w))))
  = admins (snd (reset_login_failure_counters i w))
  /\ admins (snd (unlock_administrator_account i (snd (unlock_administrator_account i w))))
     = admins (snd (unlock_administrator_account i w)).
Proof.
  destruct (admins w !! i) as [a|] eqn:Hi; split.
  - rewrite (reset_run i w a Hi). cbn [snd].
    erewrite reset_run by (cbn; apply lookup_insert_eq). cbn.
    apply insert_insert_eq.
  - destruct (unlock_run i w a Hi) as [log ->]. cbn [snd].
    edestruct unlock_run as [log' ->]; [cbn; apply lookup_insert_eq|]. cbn.
    apply insert_insert_eq.
  - rewrite !reset_missing; [reflexivity | exact Hi |].
    rewrite reset_missing by exact Hi. exact Hi.
  - rewrite !unlock_missing; [reflexivity | exact Hi |].
    rewrite unlock_missing by exact Hi. exact Hi.
Qed.

(** X15: a success between two runs of failures starts the count over.
    With a threshold of at least 2, a zeroed administrator that fails
    [max_retries - 1] times in one window, is reset (as a successful login
    does), and fails another [max_retries - 1] times in one window is still
    unlocked, with counter [max_retries - 1]. *)
Theorem reset_between_failures_prevents_lock
    (self : AdministratorService) (i t1 t2 : Z) (times1 times2 : list Z)
    (w : World) (a : Administrator) :
  admins w !! i = Some a ->
  zeroed a ->
  2 <= MAX_PASSWORD_RETRIES self ->
  Forall (fun t => t - t1 <= timedelta_minutes (PASSWORD_RETRIES_TIME_WINDOW_MINUTES self))
         times1 ->
  Forall (fun t => t - t2 <= timedelta_minutes (PASSWORD_RETRIES_TIME_WINDOW_MINUTES self))
         times2 ->
  Z.of_nat (length (t1 :: times1)) = MAX_PASSWORD_RETRIES self - 1 ->
  Z.of_nat (length (t2 :: times2)) = MAX_PASSWORD_RETRIES self - 1 ->
  exists a',
    admins (failures self i (t2 :: times2)
              (snd (reset_login_failure_counters i (failures self i (t1 :: times1) w)))) !! i
    = Some a'
    /\ account_locked a' = false
    /\ consecutive_failed_logins a' = MAX_PASSWORD_RETRIES self - 1.
Proof.
  intros Hi Hz Hmax Hin1 Hin2 Hn1 Hn2.
  destruct (lockout_boundary self i t1 times1 w a Hi Hz Hmax Hin1)
    as (a1 & Ha1 & _ & _ & Hl1).
  specialize (Hl1 Hn1).
  rewrite (reset_run i _ a1 Ha1). cbn [snd].
  set (w2 := {| admins := _; calls := _; clock := _ |}).
  assert (Hi2 : admins w2 !! i = Some (row_after_reset a1)) by apply lookup_insert_eq.
  assert (Hz2 : zeroed (row_after_reset a1)) by (unfold zeroed; cbn; auto).
  destruct (lockout_boundary self i t2 times2 w2 _ Hi2 Hz2 Hmax Hin2)
    as (a2 & Ha2 & Hc2 & _ & Hl2).
  exists a2. split; [exact Ha2|]. split; [apply Hl2, Hn2 | rewrite Hc2; exact Hn2].
Qed.

(** ** Missing rows, and rows that are not the target *)


(** X17: each operation touches one row at most.  A failed attempt recorded
    for id [i], and a lock of id [i], leave every row with another key as it
    was; a login leaves every row but the one whose key is the id of the
    administrator the username resolved to. *)
Theorem other_rows_are_untouched (self : AdministratorService) (w : World) :
  (forall i j, j <> i ->
     admins (snd (increment_login_failure_counter self i w)) !! j = admins w !! j
     /\ admins (snd (lock_administrator_account i w)) !! j = admins w !! j)
  /\ (forall name password a j,
        fst (CRUDOperations.get_administrator_by_username name w) = Ok (Some a) ->
        j <> id a ->
        admins (snd (verify_login_credentials self name password w)) !! j = admins w !! j).
Proof.
  assert (Hinc : forall w0 i j, j <> i ->
             admins (snd (increment_login_failure_counter self i w0)) !! j = admins w0 !! j).
  { intros w0 i j Hj. destruct (admins w0 !! i) as [a|] eqn:Hi.
    - destruct (increment_run self i w0 a Hi) as [upd ->]. cbn.
      apply lookup_insert_ne. congruence.
    - rewrite (increment_missing self i w0 Hi). reflexivity. }
  split.
  - intros i j Hj. split; [apply Hinc, Hj|].
    destruct (admins w !! i) as [a|] eqn:Hi.
    + rewrite (lock_run i w a Hi). cbn. apply lookup_insert_ne. congruence.
    + unfold lock_administrator_account. unfold mbind at 1, M_bind at 1.
      rewrite (get_admin_by_id_missing i w Hi). reflexivity.
  - intros name password a j Hfind Hj.
    destruct (get_administrator_by_username_run name w) as [r Hr].
    rewrite Hr in Hfind. cbn in Hfind. injection Hfind as ->.
    rewrite (verify_login_after_lookup self name password w a Hr).
    destruct (negb (account_locked a)); [|reflexivity].
    destruct (verify_password _ _ _).
    + assert (Hres : admins (snd (reset_login_failure_counters (id a) (after_lookup name w)))
                       !! j = admins w !! j).
      { destruct (admins w !! id a) as [a0|] eqn:Hi.
        - rewrite (reset_run (id a) (after_lookup name w) a0 Hi). cbn.
          apply lookup_insert_ne. congruence.
        - rewrite (reset_missing (id a) (after_lookup name w) Hi). reflexivity. }
      destruct (reset_login_failure_counters _ _) as [ [ [] | e ] w2 ]; exact Hres.
    + pose proof (Hinc (after_lookup name w) (id a) j Hj) as Hi.
      destruct (increment_login_failure_counter _ _ _) as [ [ [] | e ] w2 ]; exact Hi.
Qed.

(** ** The shape of a digest *)

Lemma hexchar_is_lower_hex (d : Z) : 0 <= d < 16 -> is_lower_hex (SHA256.hexchar d) = true.
Proof.
  intros Hd.
  assert (Hc : d = 0 \/ d = 1 \/ d = 2 \/ d = 3 \/ d = 4 \/ d = 5 \/ d = 6 \/ d = 7 \/ d = 8
               \/ d = 9 \/ d = 10 \/ d = 11 \/ d = 12 \/ d = 13 \/ d = 14 \/ d = 15) by lia.
  repeat (destruct Hc as [-> | Hc]; [reflexivity|]). subst d. reflexivity.
Qed.

Lemma hex_acc_shape (n : nat) :
  forall x acc,
  String.length (SHA256.hex_acc n x acc) = (n + String.length acc)%nat
  /\ (string_forall is_lower_hex acc = true ->
      string_forall is_lower_hex (SHA256.hex_acc n x acc) = true).
Proof.
  induction n as [|n IH]; intros x acc; cbn [SHA256.hex_acc].
  - split; [reflexivity | auto].
  - destruct (IH (x / 16) (String (SHA256.hexchar (x mod 16)) acc)) as [Hlen Hall].
    split.
    + rewrite Hlen. cbn [String.length]. lia.
    + intros Hacc. apply Hall. cbn [string_forall].
      rewrite hexchar_is_lower_hex by (apply Z.mod_pos_bound; lia). exact Hacc.
Qed.

(** X18: whatever the password and the salt, [hash_password] returns 64
    characters, each a digit or a lower-case letter from a to f. *)
Theorem hash_password_is_64_hex_digits (password salt : string) :
  String.length (hash_password password salt) = 64%nat
  /\ string_forall is_lower_hex (hash_password password salt) = true.
Proof.
  unfold hash_password, SHA256.hexdigest, SHA256.hex.
  destruct (hex_acc_shape 64 (SHA256.digest (encode_utf8 (salt +:+ ":" +:+ password)))
              EmptyString) as [Hlen Hall].
  split; [exact Hlen | apply Hall; reflexivity].
Qed.

(** ** The eligibility checker when the strategy raises *)

(** X19: [_calculate_benefits] always asks for the verdict first and once,
    and makes at most one further call; when [check_eligibility] raises, the
    exception propagates, [calculate_benefits] is not called, and the
    strategy's state is as the failed check left it. *)
Theorem checker_propagates_check_failure
    {Applicant Scheme Benefit StrategyState Exn : Type}
    (self : SchemeEligibilityChecker Applicant Scheme Benefit StrategyState Exn)
    (applicant : Applicant) (s : Spy Applicant StrategyState) :
  let verdict := check_eligibility (eligibility_definition self) applicant (strategy_state s) in
  let run := _calculate_benefits self applicant s in
  (exists rest,
     trace (snd run) = (trace s ++ CheckEligibility applicant :: rest)%list
     /\ (rest = [] \/ rest = [CalculateBenefits applicant]))
  /\ (forall e, fst verdict = Raised e ->
        fst run = Raised e
        /\ strategy_state (snd run) = snd verdict
        /\ trace (snd run) = (trace s ++ [CheckEligibility applicant])%list).
Proof.
  cbv zeta.
  unfold _calculate_benefits, _check_eligibility, C_bind, C_ret, spied.
  destruct (check_eligibility (eligibility_definition self) applicant (strategy_state s))
    as [[[[|] message]|e] st1]; cbn [fst snd strategy_state trace].
  - destruct (calculate_benefits (eligibility_definition self) applicant st1) as [r st2].
    cbn [fst snd strategy_state trace]. rewrite <- app_assoc. cbn.
    split; [eauto | intros; discriminate].
  - split; [eauto | intros; discriminate].
  - split; [eauto|]. intros e' H. injection H as <-. auto.
Qed.

(** ** Updating an administrator through the service *)

(** X20: [update_administrator] validates in update mode before it persists.
    When the validator rejects the dictionary the method raises
    [InvalidAdministratorDataException] with the validator's message and makes
    no persistence call; when it accepts, the method makes exactly one, the
    update of that id with the dictionary as the caller gave it. *)
Theorem update_validates_before_persisting
    (validate_administrator_data : gmap string string -> bool -> bool * string)
    (admin_id : Z) (update_data : gmap string string) (w : World) :
  (fst (validate_administrator_data update_data false) = false ->
   update_administrator validate_administrator_data admin_id update_data w
   = (Raise (InvalidAdministratorDataException
               (snd (validate_administrator_data update_data false))), w))
  /\ (fst (validate_administrator_data update_data false) = true ->
      calls (snd (update_administrator validate_administrator_data admin_id update_data w))
      = (calls w ++ [UpdateAdministrator admin_id (VStr <$> update_data)])%list).
Proof.
  unfold update_administrator.
  destruct (validate_administrator_data update_data false) as [[|] msg]; cbn [fst snd negb];
    split; intros H; try discriminate.
  - unfold CRUDOperations.update_administrator, mbind, M_bind, log_call, read_table,
      write_table, mret, M_ret; cbn.
    destruct (admins w !! admin_id); reflexivity.
  - reflexivity.
Qed.

(** ** Request-scoped sessions *)

(** X21: the teardown hook.  After [remove_session] the context has no
    session attribute and its other attributes are as before; a session that
    [create_session] had stored is closed, once; running the hook again, or
    without a session, calls nothing. *)
Theorem teardown_closes_the_session_once (ctx : Api.AppContext) :
  Api.g (Api.remove_session ctx) !! "db_session" = None
  /\ (forall k, k <> "db_session" -> Api.g (Api.remove_session ctx) !! k = Api.g ctx !! k)
  /\ (forall s, Api.session_calls (Api.remove_session (Api.create_session s ctx))
                = (Api.session_calls ctx ++ [Api.Close s])%list)
  /\ Api.remove_session (Api.remove_session ctx) = Api.remove_session ctx
  /\ (Api.g ctx !! "db_session" = None ->
      Api.session_calls (Api.remove_session ctx) = Api.session_calls ctx).
Proof.
  unfold Api.remove_session, Api.create_session; cbn.
  split; [destruct (Api.g ctx !! "db_session"); cbn; apply lookup_delete_eq|].
  split; [intros k Hk; destruct (Api.g ctx !! "db_session"); cbn;
          apply lookup_delete_ne; congruence|].
  split; [intros s; rewrite lookup_insert_eq; reflexivity|].
  split.
  - destruct (Api.g ctx !! "db_session"); cbn; rewrite lookup_delete_eq;
      rewrite delete_delete_eq; reflexivity.
  - intros ->. reflexivity.
Qed.

(** X22: a database error inside a request.  [handle_sqlalchemy_error]
    answers with status 500, rolls back the session of the context if there
    is one and calls nothing otherwise, and leaves the attributes alone, so
    that the teardown that follows still closes the session: the calls are
    the rollback, then the close. *)
Theorem database_error_rolls_back_then_teardown_closes (ctx : Api.AppContext) :
  snd (fst (Api.handle_sqlalchemy_error ctx)) = 500
  /\ Api.g (snd (Api.handle_sqlalchemy_error ctx)) = Api.g ctx
  /\ (forall s, Api.g ctx !! "db_session" = Some s ->
        Api.session_calls (Api.remove_session (snd (Api.handle_sqlalchemy_error ctx)))
        = (Api.session_calls ctx ++ [Api.Rollback s; Api.Close s])%list)
  /\ (Api.g ctx !! "db_session" = None ->
      Api.session_calls (Api.remove_session (snd (Api.handle_sqlalchemy_error ctx)))
      = Api.session_calls ctx).
Proof.
  unfold Api.handle_sqlalchemy_error, Api.remove_session; cbn.
  split; [reflexivity|].
  split; [destruct (Api.g ctx !! "db_session"); reflexivity|].
  split.
  - intros s Hs. rewrite Hs. cbn. rewrite Hs. cbn. rewrite <- app_assoc. reflexivity.
  - intros Hs. rewrite Hs. cbn. rewrite Hs. reflexivity.
Qed.

(** ** Lockout, then unlock *)

Lemma failures_keep_identity (self : AdministratorService) (i : Z) (times : list Z) :
  forall (w : World) (a : Administrator),
  admins w !! i = Some a ->
  exists a',
    admins (failures self i times w) = <[i := a']> (admins w)
    /\ id a' = id a /\ username a' = username a
    /\ password_hash a' = password_hash a /\ salt a' = salt a.
Proof.
  induction times as [|t times IH]; intros w a Hi; cbn [failures].
  - exists a. split; [symmetry; apply insert_id; exact Hi | auto].
  - destruct (increment_run self i (at_time t w) a Hi) as [upd Hrun].
    rewrite Hrun. cbn [snd].
    set (w1 := {| admins := _; calls := _; clock := _ |}).
    destruct (IH w1 (row_after_failure self t a)) as (a' & Ht & Hid & Hn & Hh & Hs).
    { apply lookup_insert_eq. }
    exists a'. split; [|auto].
    rewrite Ht. cbn. apply insert_insert_eq.
Qed.

(** X23: the lockout scenario.  With a threshold of at least 2, after
    [max_retries] failures in one window on a zeroed administrator (stored
    under its own id, username unique), a login with the password that
    matches the stored digest returns none; after
    [unlock_administrator_account] the same login returns the administrator,
    zeroed. *)
Theorem lockout_refuses_until_unlock
    (self : AdministratorService) (name password : string) (t1 : Z) (times : list Z)
    (w : World) (a : Administrator) :
  admins w !! id a = Some a ->
  username a = name ->
  username_unique name (id a) (admins w) ->
  zeroed a ->
  2 <= MAX_PASSWORD_RETRIES self ->
  Forall (fun t => t - t1 <= timedelta_minutes (PASSWORD_RETRIES_TIME_WINDOW_MINUTES self))
         times ->
  Z.of_nat (length (t1 :: times)) = MAX_PASSWORD_RETRIES self ->
  verify_password (password_hash a) password (salt a) = true ->
  let w1 := failures self (id a) (t1 :: times) w in
  fst (verify_login_credentials self name password w1) = Ok None
  /\ exists a1,
       fst (verify_login_credentials self name password
              (snd (unlock_administrator_account (id a) w1))) = Ok (Some a1)
       /\ zeroed a1.
Proof.
  intros Hk Hname Huniq Hz Hmax Hin Hn Hv. cbv zeta.
  destruct (lockout_boundary self (id a) t1 times w a Hk Hz Hmax Hin)
    as (a' & Ha' & _ & Hl & _).
  specialize (Hl Hn).
  destruct (failures_keep_identity self (id a) (t1 :: times) w a Hk)
    as (a'' & Ht & Hid & Hun & Hh & Hs).
  set (w1 := failures self (id a) (t1 :: times) w) in *.
  assert (a'' = a') by (rewrite Ht, lookup_insert_eq in Ha'; congruence). subst a''.
  assert (Hk1 : admins w1 !! id a' = Some a') by (rewrite Hid; exact Ha').
  assert (Huniq1 : username_unique name (id a') (admins w1)).
  { rewrite Hid, Ht. apply unique_after_insert, Huniq. }
  assert (Hname1 : username a' = name) by congruence.
  split.
  - rewrite (verify_login_after_lookup self name password w1 a'
               (crud_lookup_unique name (id a') w1 a' Hk1 Hname1 Huniq1)).
    rewrite Hl. reflexivity.
  - exists (row_after_unlock a'). split; [|unfold zeroed; cbn; auto].
    rewrite <- Hid.
    destruct (unlock_run (id a') w1 a' Hk1) as [log ->]. cbn [snd].
    set (w2 := {| admins := _; calls := log; clock := _ |}).
    assert (Hk2 : admins w2 !! id (row_after_unlock a') = Some (row_after_unlock a'))
      by apply lookup_insert_eq.
    assert (Hlook := crud_lookup_unique name (id a') w2 (row_after_unlock a') Hk2 Hname1
                       (unique_after_insert _ _ _ _ Huniq1)).
    rewrite (verify_login_after_lookup self name password w2 _ Hlook).
    cbn [account_locked row_after_unlock negb password_hash salt].
    rewrite Hh, Hs, Hv.
    rewrite (reset_run _ (after_lookup name w2) _ Hk2). reflexivity.
Qed.

(** ** Salts without the separator *)




(** ** Instances of the further properties on the sample data *)

Lemma unique_in_singleton (name : string) (k : Z) (a : Administrator) :
  username_unique name k {[ k := a ]}.
Proof.
  intros k' a' Hk' _. apply lookup_singleton_Some in Hk'. symmetry. apply Hk'.
Qed.

Lemma free_in_singleton (name : string) (k : Z) (a : Administrator) :
  username a <> name -> username_free name {[ k := a ]}.
Proof.
  intros Hne k' a' Hk' Hn. apply lookup_singleton_Some in Hk'. destruct Hk' as [_ <-].
  exact (Hne Hn).
Qed.

Lemma login_is_sound_witness :
  fst (CRUDOperations.get_administrator_by_username "root" sample_world) = Ok (Some sample_admin)
  /\ username sample_admin = "root"
  /\ account_locked sample_admin = false
  /\ verify_password (password_hash sample_admin) "Secret123" (salt sample_admin) = true.
Proof.
  apply (login_is_sound default_service "root" "Secret123" sample_world sample_admin).
  vm_compute. reflexivity.
Defined.

Lemma login_success_zeroes_counters_witness :
  verify_login_credentials default_service "root" "Secret123" sample_world
  = (Ok (Some sample_admin),
     {| admins := <[id sample_admin := row_after_reset sample_admin]> (admins sample_world);
        calls := calls sample_world ++ [GetAdministratorByUsername "root";
                                        UpdateAdministrator (id sample_admin) reset_data];
        clock := clock sample_world |})
  /\ zeroed (row_after_reset sample_admin).
Proof.
  apply (login_success_zeroes_counters default_service "root" "Secret123" sample_world
           sample_admin).
  - reflexivity.
  - reflexivity.
  - apply unique_in_singleton.
  - reflexivity.
  - vm_compute. reflexivity.
Defined.

Lemma login_failure_counts_one_witness :
  exists update_data,
    verify_login_credentials default_service "root" "guess" sample_world
    = (Ok None,
       {| admins := <[id sample_admin := row_after_failure default_service (clock sample_world)
                                           sample_admin]> (admins sample_world);
          calls := calls sample_world
                   ++ [GetAdministratorByUsername "root"; GetAdministrator (id sample_admin);
                       UpdateAdministrator (id sample_admin) update_data];
          clock := clock sample_world |})
    /\ failed_login_starttime (row_after_failure default_service (clock sample_world)
                                 sample_admin) <> None.
Proof.
  apply (login_failure_counts_one default_service "root" "guess" sample_world sample_admin).
  - reflexivity.
  - reflexivity.
  - apply unique_in_singleton.
  - reflexivity.
  - vm_compute. reflexivity.
Defined.

Lemma login_unknown_username_witness :
  verify_login_credentials default_service "nobody" "Secret123" sample_world
  = (Raise (AdministratorNotFoundException "Administrator with Isername nobody not found."),
     {| admins := admins sample_world;
        calls := calls sample_world ++ [GetAdministratorByUsername "nobody"];
        clock := clock sample_world |}).
Proof.
  apply (login_unknown_username default_service "nobody" "Secret123" sample_world).
  apply free_in_singleton. discriminate.
Defined.


Lemma created_administrator_can_log_in_witness :
  exists a w',
    create_administrator require_username alice_data sample_salt sample_world = (Ok a, w')
    /\ fst (verify_login_credentials default_service "alice" "Secret123" w') = Ok (Some a)
    /\ forall other,
         verify_password (hash_password "Secret123" sample_salt) other sample_salt = false ->
         fst (verify_login_credentials default_service "alice" other w') = Ok None.
Proof.
  apply (created_administrator_can_log_in default_service require_username alice_data
           sample_salt "Secret123" "alice" sample_world eq_refl eq_refl eq_refl).
  apply free_in_singleton. discriminate.
Defined.


Lemma unlock_zeroes_and_unlocks_witness :
  exists a',
    unlock_administrator_account 1 locked_world
    = (Ok tt, {| admins := <[1 := a']> (admins locked_world);
                 calls := calls locked_world
                          ++ [GetAdministrator 1; UpdateAdministrator 1 unlock_data];
                 clock := clock locked_world |})
    /\ zeroed a'
    /\ id a' = id locked_admin /\ username a' = username locked_admin
    /\ password_hash a' = password_hash locked_admin /\ salt a' = salt locked_admin
    /\ forall j, j <> 1 ->
         admins (snd (unlock_administrator_account 1 locked_world)) !! j
         = admins locked_world !! j.
Proof. exact (unlock_zeroes_and_unlocks 1 locked_world locked_admin eq_refl). Defined.

Lemma forced_lock_blocks_login_witness :
  let w1 := snd (lock_administrator_account (id sample_admin) sample_world) in
  admins w1 !! id sample_admin = Some (row_after_lock sample_admin)
  /\ fst (verify_login_credentials default_service "root" "Secret123" w1) = Ok None
  /\ admins (snd (verify_login_credentials default_service "root" "Secret123" w1)) = admins w1.
Proof.
  apply (forced_lock_blocks_login default_service "root" "Secret123" sample_world sample_admin).
  - reflexivity.
  - reflexivity.
  - apply unique_in_singleton.
Defined.

Lemma unlock_restores_login_witness :
  fst (verify_login_credentials default_service "root" "Secret123"
         (snd (unlock_administrator_account (id locked_admin) locked_world)))
  = Ok (Some (row_after_unlock locked_admin)).
Proof.
  apply (unlock_restores_login default_service "root" "Secret123" locked_world locked_admin).
  - reflexivity.
  - reflexivity.
  - apply unique_in_singleton.
  - vm_compute. reflexivity.
Defined.

Lemma login_flow_never_unlocks_witness :
  exists a,
    admins locked_world !! 1 = Some a
    /\ (account_locked a = true -> account_locked locked_admin = true)
    /\ id locked_admin = id a /\ username locked_admin = username a
    /\ password_hash locked_admin = password_hash a /\ salt locked_admin = salt a.
Proof.
  apply (login_flow_never_unlocks default_service (OpVerifyLogin "root" "Secret123")
           locked_world 1 locked_admin).
  - reflexivity.
  - vm_compute. reflexivity.
Defined.

Lemma unlocked_rows_stay_below_threshold_witness :
  exists a,
    admins sample_world !! 1 = Some a
    /\ (below_threshold default_service a ->
        below_threshold default_service (row_after_failure default_service 0 sample_admin)).
Proof.
  apply (unlocked_rows_stay_below_threshold default_service (OpIncrement 1) sample_world 1).
  - cbn. lia.
  - vm_compute. reflexivity.
Defined.

Lemma reset_between_failures_prevents_lock_witness :
  exists a',
    admins (failures default_service 1 [20 * minute; 21 * minute; 22 * minute; 23 * minute]
              (snd (reset_login_failure_counters 1
                      (failures default_service 1 [0; minute; 2 * minute; 3 * minute]
                         sample_world)))) !! 1
    = Some a'
    /\ account_locked a' = false
    /\ consecutive_failed_logins a' = MAX_PASSWORD_RETRIES default_service - 1.
Proof.
  apply (reset_between_failures_prevents_lock default_service 1 0 (20 * minute)
           [minute; 2 * minute; 3 * minute] [21 * minute; 22 * minute; 23 * minute]
           sample_world sample_admin).
  - reflexivity.
  - repeat split.
  - cbn; lia.
  - repeat constructor; cbn; unfold timedelta_minutes, minute; lia.
  - repeat constructor; cbn; unfold timedelta_minutes, minute; lia.
  - reflexivity.
  - reflexivity.
Defined.


Lemma lockout_refuses_until_unlock_witness :
  let w1 := failures default_service (id sample_admin)
              [0; minute; 2 * minute; 3 * minute; 4 * minute] sample_world in
  fst (verify_login_credentials default_service "root" "Secret123" w1) = Ok None
  /\ exists a1,
       fst (verify_login_credentials default_service "root" "Secret123"
              (snd (unlock_administrator_account (id sample_admin) w1))) = Ok (Some a1)
       /\ zeroed a1.
Proof.
  apply (lockout_refuses_until_unlock default_service "root" "Secret123" 0
           [minute; 2 * minute; 3 * minute; 4 * minute] sample_world sample_admin).
  - reflexivity.
  - reflexivity.
  - apply unique_in_singleton.
  - repeat split.
  - cbn; lia.
  - repeat constructor; cbn; unfold timedelta_minutes, minute; lia.
  - reflexivity.
  - vm_compute. reflexivity.
Defined.

